(** * protoc-gen-go-svcintf: the service-interface generator

    A shallow embedding of the generator (package main of the plugin) and
    the properties of the text it emits.  Go strings are byte strings and
    are modelled by [string]; the generated file is the sequence of the
    [P] calls made on it. *)

From Stdlib Require Import List ZArith NArith Lia Bool Arith Ascii String.
Import ListNotations.
Open Scope string_scope.

(** ** Bytes that have no literal notation *)

Definition LF : ascii := "010"%char.
Definition DQ : ascii := "034"%char.

(** The one-byte strings for a line feed and a double quote.  Rocq
    string literals have no escapes, so the Go literal for the two
    bytes backslash, n is written here as the literal holding exactly
    these two bytes. *)
Definition NL : string := String LF "".
Definition QUOTE : string := String DQ "".
Definition BACKSLASH_N : string := "\n".

(** ** The parts of Go's [strings] package the generator calls *)

Module strings.

(** [s[i:j]] *)
Definition slice (s : string) (i j : nat) : string := substring i (j - i) s.

(** [s[i:]] *)
Definition sliceFrom (s : string) (i : nat) : string := slice s i (length s).

Definition HasSuffix (s suffix : string) : bool :=
  (length suffix <=? length s)%nat &&
  (slice s (length s - length suffix) (length s) =? suffix).

Definition TrimSuffix (s suffix : string) : string :=
  if HasSuffix s suffix then slice s 0 (length s - length suffix) else s.

(** [strings.Split(s, sep)] for a separator of one byte: the pieces of
    [s] between the occurrences of [sep]; one more piece than there are
    separators, so never an empty slice. *)
Fixpoint Split (s : string) (sep : ascii) : list string :=
  match s with
  | "" => [""]
  | String c s' =>
      if (c =? sep)%char then "" :: Split s' sep
      else match Split s' sep with
           | piece :: pieces => String c piece :: pieces
           | [] => [String c ""]
           end
  end.

(** [strings.HasPrefix] *)
Fixpoint HasPrefix (s pre : string) {struct pre} : bool :=
  match pre with
  | "" => true
  | String a pre' =>
      match s with
      | String b s' => (a =? b)%char && HasPrefix s' pre'
      | "" => false
      end
  end.

(** [strings.Join] *)
Definition Join (elems : list string) (sep : string) : string := String.concat sep elems.

(** The white space of [unicode.IsSpace], by UTF-8 encoding.  One byte:
    tab, line feed, vertical tab, form feed, carriage return, space. *)
Definition isSpace1 (c : ascii) : bool :=
  let n := N_of_ascii c in
  ((9 <=? n) && (n <=? 13) || (n =? 32))%N.

(** Two bytes: U+0085 and U+00A0. *)
Definition isSpace2 (c d : ascii) : bool :=
  let n := N_of_ascii c in
  let m := N_of_ascii d in
  ((n =? 194) && ((m =? 133) || (m =? 160)))%N.

(** Three bytes: U+1680, U+2000 to U+200A, U+2028, U+2029, U+202F,
    U+205F and U+3000. *)
Definition isSpace3 (c d e : ascii) : bool :=
  let n := N_of_ascii c in
  let m := N_of_ascii d in
  let k := N_of_ascii e in
  ((n =? 225) && (m =? 154) && (k =? 128)
   || (n =? 226) && (m =? 128)
        && ((128 <=? k) && (k <=? 138) || (k =? 168) || (k =? 169) || (k =? 175))
   || (n =? 226) && (m =? 129) && (k =? 159)
   || (n =? 227) && (m =? 128) && (k =? 128))%N.

Section Scan.

(** Which sequences of one, two and three bytes are to be dropped. *)
Variable w1 : ascii -> bool.
Variable w2 : ascii -> ascii -> bool.
Variable w3 : ascii -> ascii -> ascii -> bool.

(** Drop the leading runes given by [w1], [w2] and [w3]; a byte that
    does not start one of them stops the scan. *)
Fixpoint dropRunes (s : string) : string :=
  match s with
  | "" => ""
  | String c r1 =>
      if w1 c then dropRunes r1
      else match r1 with
           | String d r2 =>
               if w2 c d then dropRunes r2
               else match r2 with
                    | String e r3 => if w3 c d e then dropRunes r3 else s
                    | "" => s
                    end
           | "" => s
           end
  end.

(** Whether the string starts with one of the runes. *)
Definition startsRune (s : string) : bool :=
  match s with
  | "" => false
  | String c r1 =>
      w1 c ||
      match r1 with
      | String d r2 =>
          w2 c d ||
          match r2 with
          | String e _ => w3 c d e
          | "" => false
          end
      | "" => false
      end
  end.

End Scan.

(** [strings.TrimLeftFunc(s, unicode.IsSpace)]: drop the white-space
    runes at the front. *)
Definition TrimLeft (s : string) : string := dropRunes isSpace1 isSpace2 isSpace3 s.

Fixpoint rev (s : string) : string :=
  match s with
  | "" => ""
  | String c s' => rev s' ++ String c ""
  end.

(** The same scan over the reversed string, where the bytes of a rune
    come last byte first: the last rune of a string is decoded from the
    bytes before its end. *)
Definition TrimLeftRev (t : string) : string :=
  dropRunes isSpace1 (fun e d => isSpace2 d e) (fun e d c => isSpace3 c d e) t.

(** [strings.TrimRightFunc(s, unicode.IsSpace)] *)
Definition TrimRight (s : string) : string := rev (TrimLeftRev (rev s)).

(** [strings.TrimSpace] *)
Definition TrimSpace (s : string) : string := TrimRight (TrimLeft s).

(** [strings.ContainsRune(s, '\n')] and the like, for one byte. *)
Fixpoint ContainsByte (s : string) (b : ascii) : bool :=
  match s with
  | "" => false
  | String c s' => (c =? b)%char || ContainsByte s' b
  end.

End strings.

(** ** The regular expression of [commentsToStr] *)

Module regexp.

(** [re.FindAllSubmatchIndex([]byte(str), -1)] for the pattern
    [([^\n])(\n)]: the successive non-overlapping matches, left to
    right, each as the six offsets (match, group 1, group 2).  The
    pattern is matched on bytes: a byte other than a line feed, then a
    line feed.  Go matches a whole rune for the first group; as the
    last byte of a rune of several bytes is never a line feed, the
    replaced text is the same. *)
Fixpoint findAll (pos : nat) (s : string) : list (list nat) :=
  match s with
  | String c (String d rest as s') =>
      if negb (c =? LF)%char && (d =? LF)%char
      then [pos; pos + 2; pos; pos + 1; pos + 1; pos + 2] :: findAll (pos + 2) rest
      else findAll (pos + 1) s'
  | _ => []
  end.

Definition FindAllSubmatchIndex (str : string) : list (list nat) := findAll 0 str.

End regexp.

(** ** Comment normalizer *)

(** The groups of one match: [str[v[i]:v[i+1]]] for [i = 0, 2, 4, ...]. *)
Fixpoint submatches (str : string) (v : list nat) : list string :=
  match v with
  | lo :: hi :: v' => strings.slice str lo hi :: submatches str v'
  | _ => []
  end.

(** One turn of the loop of [replaceAllStringSubmatchFunc], on the
    match [v]: the new [result] and [lastIndex]. *)
Definition replaceStep (str : string) (repl : list string -> string)
  (acc : string * nat) (v : list nat) : string * nat :=
  let (result, lastIndex) := acc in
  let groups := submatches str v in
  (result ++ strings.slice str lastIndex (nth 0 v 0%nat) ++ repl groups, nth 1 v 0%nat).

Definition replaceAllStringSubmatchFunc
  (re : string -> list (list nat)) (str : string) (repl : list string -> string) : string :=
  let (result, lastIndex) := fold_left (replaceStep str repl) (re str) ("", 0%nat) in
  result ++ strings.sliceFrom str lastIndex.

(** The rule of the soft wraps in one pass over the text: a line feed
    that follows a byte other than a line feed becomes a space. *)
Fixpoint joinWraps (s : string) : string :=
  match s with
  | String c (String d rest as s') =>
      if negb (c =? LF)%char && (d =? LF)%char
      then String c (String " " (joinWraps rest))
      else String c (joinWraps s')
  | _ => s
  end.

(** The text after the soft wraps are joined, and its lines. *)
Definition joinedComment (comments : string) : string :=
  let c := strings.TrimSuffix comments NL in
  replaceAllStringSubmatchFunc regexp.FindAllSubmatchIndex c
    (fun g => nth 1 g "" ++ " ").

(** The loop of [commentsToStr] over the lines, from index [i], writing
    to the builder [b]. *)
Fixpoint writeLines (l i : Z) (lines : list string) (b : string) : string :=
  match lines with
  | [] => b
  | c :: rest =>
      let b := b ++ QUOTE in
      let b := b ++ strings.TrimSpace c in
      let b := if (i <? l - 1)%Z
               then ((b ++ BACKSLASH_N ++ QUOTE) ++ "+") ++ NL
               else b ++ QUOTE in
      writeLines l (i + 1) rest b
  end.

Definition commentsToStr (comments : string) : string :=
  let c := joinedComment comments in
  let lines := strings.Split c LF in
  let l := Z.of_nat (List.length lines) in
  let b := "" in
  let b := if (l =? 0)%Z then b ++ QUOTE ++ QUOTE else b in
  writeLines l 0 lines b.

(** The lines that [commentsToStr] quotes, and the text that the quoted
    lines, each but the last ended by the escape for a line feed, stand
    for: the help text a reader of the generated constant sees. *)
Definition normalizedLines (comments : string) : list string :=
  map strings.TrimSpace (strings.Split (joinedComment comments) LF).

Definition normalizedText (comments : string) : string :=
  strings.Join (normalizedLines comments) NL.

(** ** The schema descriptors *)

(** Modelled from the spec: the descriptor types of package protogen
    are not among the sources.  The records hold what the data model
    of the specification gives a file, a service, a method, a message
    and a field, under the names by which the generator reads them.
    A message holds, besides, the messages that are declared inside
    it, as a message of protogen does in its field [Messages]: the
    messages of a file are those of its top level only. *)
Record GoIdent := { ident_GoName : string; ident_GoImportPath : string }.

Record Location := { SourceFile : string; Path : list Z }.

Record SourceLocation :=
  { LeadingDetachedComments : list string; LeadingComments : string }.

(** A field: [fld.Desc.Name()] and [fld.Comments.Leading]. *)
Record Field := { field_Name : string; field_Leading : string }.

(** A message: [msg.GoIdent], [msg.Comments.Leading], [msg.Fields] and
    [msg.Messages], the messages that are declared inside the message. *)
#[warnings="-register-all"] Inductive Message :=
  { msg_GoIdent : GoIdent;
    msg_Leading : string;
    msg_Fields : list Field;
    msg_Messages : list Message }.

(** A method: [meth_Parent_GoName] is [method.Parent.GoName], the two
    streaming flags are [method.Desc.IsStreamingClient()] and
    [method.Desc.IsStreamingServer()], [meth_Deprecated] is the
    deprecated option of the method. *)
Record Method :=
  { meth_GoName : string;
    meth_Parent_GoName : string;
    meth_Input : Message;
    meth_Output : Message;
    IsStreamingClient : bool;
    IsStreamingServer : bool;
    meth_Deprecated : bool;
    meth_Leading : string;
    meth_Location : Location }.

Record Service :=
  { svc_GoName : string;
    svc_Methods : list Method;
    svc_Deprecated : bool;
    svc_Location : Location }.

(** [Messages] is [file.Messages], the messages that the file
    declares at its top level; [file_Path] is [file.Desc.Path()], [file_Deprecated] the
    deprecated option of the file, and the two locations are those of
    the syntax and of the package statement. *)
Record File :=
  { Services : list Service;
    Messages : list Message;
    GeneratedFilenamePrefix : string;
    file_GoImportPath : string;
    GoPackageName : string;
    file_Path : string;
    file_Deprecated : bool;
    syntaxLocation : SourceLocation;
    packageLocation : SourceLocation }.

(** ** The generated file *)

(** [buf] holds the text of each [P] call, in order, without the line
    feed that ends it; [annotations] the calls of [Annotate]. *)
Record GeneratedFile :=
  { filename : string;
    goImportPath : string;
    buf : list string;
    annotations : list (string * Location) }.

(** The plugin holds the files generated so far. *)
Record Plugin := { genFiles : list GeneratedFile }.

(** The bytes of the buffer: every [P] call ends its line. *)
Definition bufText (g : GeneratedFile) : string :=
  String.concat "" (map (fun line => line ++ NL) (buf g)).

(** [protogen.Comments.String], by which [P] prints a comment: each
    line of the comment after two slashes and ended by a line feed;
    nothing for the empty comment. *)
Definition Comments_String (c : string) : string :=
  if (c =? "") then ""
  else fold_left (fun b line => ((b ++ "//") ++ line) ++ NL)
         (strings.Split (strings.TrimSuffix c NL) LF) "".

(** What [P] is called with: a string, an identifier to qualify, or a
    comment. *)
Inductive PArg :=
| Str (s : string)
| Ident (ident : GoIdent)
| Cmts (c : string).

Fixpoint cat (l : list string) : string :=
  match l with
  | [] => ""
  | [x] => x
  | x :: rest => x ++ cat rest
  end.

(** [append(s, x)] *)
Definition goAppend {A : Type} (s : list A) (x : A) : list A := (s ++ [x])%list.

Definition Gen := GeneratedFile -> GeneratedFile.

Definition seq (a b : Gen) : Gen := fun g => b (a g).
Notation "a ;; b" := (seq a b) (at level 61, right associativity).

Definition skip : Gen := fun g => g.

Definition when (b : bool) (a : Gen) : Gen := if b then a else skip.

Definition ifElse (b : bool) (a a' : Gen) : Gen := if b then a else a'.

(** [for _, x := range l { body }] *)
Definition forEach {A : Type} (l : list A) (body : A -> Gen) : Gen :=
  fun g => fold_left (fun g x => body x g) l g.

Definition deprecationComment : string := "// Deprecated: Do not use.".

Definition contextPackage : string := "context".
Definition protoPackage : string := "google.golang.org/protobuf/proto".
Definition protoReflectPackage : string := "google.golang.org/protobuf/reflect/protoreflect".
Definition errPackage : string := "errors".

Definition ctxIdent : GoIdent :=
  {| ident_GoName := "Context"; ident_GoImportPath := contextPackage |}.
Definition protoMsgIdent : GoIdent :=
  {| ident_GoName := "Message"; ident_GoImportPath := protoPackage |}.
Definition protoDescriptorIdent : GoIdent :=
  {| ident_GoName := "MessageDescriptor"; ident_GoImportPath := protoReflectPackage |}.

(** [fmt.Sprintf("%v", b)] *)
Definition fmtBool (b : bool) : string := if b then "true" else "false".

Section Generator.

(** The package name under which the generated file imports a path:
    protogen chooses it at the first use of the path and keeps it. *)
Variable packageName : string -> string.

Definition QualifiedGoIdent (g : GeneratedFile) (ident : GoIdent) : string :=
  if (ident_GoImportPath ident =? goImportPath g) then ident_GoName ident
  else packageName (ident_GoImportPath ident) ++ "." ++ ident_GoName ident.

Definition printArg (g : GeneratedFile) (x : PArg) : string :=
  match x with
  | Str s => s
  | Ident ident => QualifiedGoIdent g ident
  | Cmts c => Comments_String c
  end.

Definition P (v : list PArg) : Gen :=
  fun g =>
    {| filename := filename g;
       goImportPath := goImportPath g;
       buf := goAppend (buf g) (cat (map (printArg g) v));
       annotations := annotations g |}.

Definition Annotate (symbol : string) (loc : Location) : Gen :=
  fun g =>
    {| filename := filename g;
       goImportPath := goImportPath g;
       buf := buf g;
       annotations := goAppend (annotations g) (symbol, loc) |}.

Definition NewGeneratedFile (name : string) (path : string) : GeneratedFile :=
  {| filename := name; goImportPath := path; buf := []; annotations := [] |}.

Definition clientSignature (g : GeneratedFile) (method : Method) : string :=
  let s := meth_GoName method ++ "(ctx " ++ QualifiedGoIdent g ctxIdent in
  let s := if negb (IsStreamingClient method)
           then s ++ ", in *" ++ QualifiedGoIdent g (msg_GoIdent (meth_Input method))
           else s in
  let s := if negb (IsStreamingServer method)
           then s ++ ", out *" ++ QualifiedGoIdent g (msg_GoIdent (meth_Output method))
           else s in
  let s := s ++ ") (" in
  let s := if IsStreamingClient method || IsStreamingServer method
           then (s ++ meth_Parent_GoName method ++ "_" ++ meth_GoName method ++ "Client") ++ ","
           else s in
  s ++ "error)".

(** The slice [reqArgs] of [serverSignature]. *)
Definition serverParams (g : GeneratedFile) (method : Method) : list string :=
  let reqArgs : list string := [] in
  let reqArgs := goAppend reqArgs (QualifiedGoIdent g ctxIdent) in
  let reqArgs := if negb (IsStreamingClient method)
                 then goAppend reqArgs ("*" ++ QualifiedGoIdent g (msg_GoIdent (meth_Input method)))
                 else reqArgs in
  if IsStreamingClient method || IsStreamingServer method
  then goAppend reqArgs (meth_Parent_GoName method ++ "_" ++ meth_GoName method ++ "Server")
  else goAppend reqArgs ("*" ++ QualifiedGoIdent g (msg_GoIdent (meth_Output method))).

Definition serverSignature (g : GeneratedFile) (method : Method) : string :=
  let ret := "error" in
  meth_GoName method ++ "(" ++ strings.Join (serverParams g method) ", " ++ ") " ++ ret.

Definition genClientMethod (gen : Plugin) (file : File) (method : Method) (index : Z) : Gen :=
  let service_GoName := meth_Parent_GoName method in
  let isStreaming := IsStreamingServer method || IsStreamingClient method in
  when isStreaming
    (let genRecv := IsStreamingServer method in
     P [Str "type "; Str service_GoName; Str "_"; Str (meth_GoName method);
        Str "Client interface {"] ;;
     when genRecv (P [Str "Recv(*"; Ident (msg_GoIdent (meth_Output method)); Str ") error"]) ;;
     P [Str "}"] ;;
     P []) ;;
  let implName := "client_" ++ service_GoName in
  (fun g => P [Str "func (c *"; Str implName; Str ") ";
               Str (clientSignature g method); Str "{"] g) ;;
  ifElse (negb isStreaming)
    (P [Str "const method = "; Str QUOTE; Str (meth_GoName method); Str QUOTE] ;;
     P [Str "return c.defn.Methods[method].ClientHandler(c.c, ctx, in, out)"])
    (P [Str "const method = "; Str QUOTE; Str (meth_GoName method); Str QUOTE] ;;
     P [Str "inner, err := c.defn.Methods[method].ClientStreamHandler(c.c, ctx, in)"] ;;
     P [Str "if err != nil { return nil, err } "] ;;
     P [Str "return streamerImpl[*"; Ident (msg_GoIdent (meth_Output method));
        Str "]{c: inner}, nil"]) ;;
  P [Str "}"] ;;
  P [].

(** [genServerMethod] returns the handler name and writes the stream
    interface of a streaming method. *)
Definition genServerMethod_hname (method : Method) : string :=
  "_" ++ meth_Parent_GoName method ++ "_" ++ meth_GoName method ++ "_Handler".

Definition genServerMethod (gen : Plugin) (file : File) (method : Method)
  (hnameFuncNameFormatter : string -> string) (g : GeneratedFile) : string * GeneratedFile :=
  let service_GoName := meth_Parent_GoName method in
  let hname := genServerMethod_hname method in
  if negb (IsStreamingClient method) && negb (IsStreamingServer method)
  then (hname, g)
  else
    let genSend := IsStreamingServer method in
    let typ := service_GoName ++ "_" ++ meth_GoName method ++ "Server" in
    (hname,
     (P [Str "type "; Str typ; Str " interface {"] ;;
      when genSend (P [Str "Send(m *"; Ident (msg_GoIdent (meth_Output method)); Str ") error "]) ;;
      P [Str "}"] ;;
      P []) g).

(** One turn of the loop of [generateServerFunctions]. *)
Definition serverMethodStep (gen : Plugin) (file : File)
  (acc : list string * GeneratedFile) (method : Method) : list string * GeneratedFile :=
  let (handlerNames, g) := acc in
  let (hname, g) := genServerMethod gen file method (fun hname => hname) g in
  (goAppend handlerNames hname, g).

(** [serviceGenerateHelper.generateServerFunctions]: the handler names
    are collected and dropped. *)
Definition generateServerFunctions (gen : Plugin) (file : File) (service : Service)
  (serverType serviceDescVar : string) : Gen :=
  fun g => snd (fold_left (serverMethodStep gen file) (svc_Methods service) ([], g)).

(** The body of the loop of [genServiceDef]: the entry of one method. *)
Definition genMethodDefn (svc : Service) (meth : Method) : Gen :=
  P [Str QUOTE; Str (meth_GoName meth); Str QUOTE; Str ": {"] ;;
  let svrTyp := meth_Parent_GoName meth ++ "Server" in
  P [Str "IsStreaming: "; Str (fmtBool (IsStreamingServer meth)); Str ","] ;;
  P [Str "NewRequest: func() "; Ident protoMsgIdent; Str " { return new(";
     Ident (msg_GoIdent (meth_Input meth)); Str ")},"] ;;
  P [Str "NewResponse: func() "; Ident protoMsgIdent; Str " { return new(";
     Ident (msg_GoIdent (meth_Output meth)); Str ")},"] ;;
  P [Str "RequestDefn: func() "; Ident protoDescriptorIdent; Str " { return new(";
     Ident (msg_GoIdent (meth_Input meth)); Str ").ProtoReflect().Descriptor()},"] ;;
  P [Str "ResponseDefn: func() "; Ident protoDescriptorIdent; Str " { return new(";
     Ident (msg_GoIdent (meth_Output meth)); Str ").ProtoReflect().Descriptor()},"] ;;
  P [Str "Help: "; Str (commentsToStr (meth_Leading meth)); Str ","] ;;
  ifElse (negb (IsStreamingServer meth))
    (P [Str "ServerHandler: func(x interface{}, ctx "; Ident ctxIdent;
        Str ", request, response "; Ident protoMsgIdent; Str ") error {"] ;;
     P [Str "return x.("; Str svrTyp; Str ")."; Str (meth_GoName meth);
        Str "(ctx, request.(*"; Ident (msg_GoIdent (meth_Input meth));
        Str "), response.(*"; Ident (msg_GoIdent (meth_Output meth)); Str "))"] ;;
     P [Str "},"] ;;
     P [Str "ClientHandler: func(conn ClientConn, ctx "; Ident ctxIdent;
        Str ", request, response "; Ident protoMsgIdent; Str ") error {"] ;;
     P [Str "method := "; Str QUOTE; Str (svc_GoName svc ++ "." ++ meth_GoName meth); Str QUOTE] ;;
     P [Str "return conn.Request(ctx, method, request, response)"] ;;
     P [Str "},"])
    (P [Str "ServerStreamHandler: func(x interface{}, ctx "; Ident ctxIdent;
        Str ", request "; Ident protoMsgIdent; Str ", stream ServerStream) error {"] ;;
     P [Str "return x.("; Str svrTyp; Str ")."; Str (meth_GoName meth);
        Str "(ctx, request.(*"; Ident (msg_GoIdent (meth_Input meth));
        Str "), streamerImpl[*"; Ident (msg_GoIdent (meth_Output meth)); Str "]{s: stream})"] ;;
     P [Str "},"] ;;
     P [Str "ClientStreamHandler: func(conn ClientConn, ctx "; Ident ctxIdent;
        Str ", request "; Ident protoMsgIdent; Str ") (ClientStream, error) {"] ;;
     P [Str "method := "; Str QUOTE; Str (svc_GoName svc ++ "." ++ meth_GoName meth); Str QUOTE] ;;
     P [Str "return conn.Stream(ctx, method, request)"] ;;
     P [Str "},"]) ;;
  P [Str "},"].

Definition genServiceDef (gen : Plugin) (file : File) (svc : Service) : Gen :=
  P [Str "func "; Str (svc_GoName svc); Str "Defn() ServiceDefn { "] ;;
  P [Str "return ServiceDefn {"] ;;
  P [Str "Name: "; Str QUOTE; Str (svc_GoName svc); Str QUOTE; Str ","] ;;
  P [Str "Methods: map[string]MethodDefn{"] ;;
  forEach (svc_Methods svc) (genMethodDefn svc) ;;
  P [Str "},"] ;;
  P [Str "}"] ;;
  P [Str "}"] ;;
  P [].

(** The client interface of [genService]. *)
Definition genClientInterface (service : Service) : Gen :=
  let clientName := svc_GoName service ++ "Client" in
  P [Str "// "; Str clientName; Str " is the client API for "; Str (svc_GoName service);
     Str " service."] ;;
  when (svc_Deprecated service)
    (P [Str "//"] ;;
     P [Str deprecationComment]) ;;
  Annotate clientName (svc_Location service) ;;
  P [Str "type "; Str clientName; Str " interface {"] ;;
  forEach (svc_Methods service) (fun method =>
    Annotate (clientName ++ "." ++ meth_GoName method) (meth_Location method) ;;
    when (meth_Deprecated method) (P [Str deprecationComment]) ;;
    (fun g => P [Cmts (meth_Leading method); Str (clientSignature g method)] g)) ;;
  P [Str "}"] ;;
  P [].

(** One turn of the loop over the methods of the client: the unary
    methods and the streaming methods are counted apart. *)
Definition clientMethodStep (gen : Plugin) (file : File)
  (acc : (Z * Z) * GeneratedFile) (method : Method) : (Z * Z) * GeneratedFile :=
  let '((methodIndex, streamIndex), g) := acc in
  if negb (IsStreamingServer method) && negb (IsStreamingClient method)
  then ((methodIndex + 1, streamIndex)%Z, genClientMethod gen file method methodIndex g)
  else ((methodIndex, streamIndex + 1)%Z, genClientMethod gen file method streamIndex g).

(** The client structure, its methods and its constructor. *)
Definition genClientImpl (gen : Plugin) (file : File) (service : Service) : Gen :=
  let clientName := svc_GoName service ++ "Client" in
  let implName := "client_" ++ svc_GoName service in
  P [Str "type "; Str implName; Str " struct {"] ;;
  P [Str "c ClientConn"] ;;
  P [Str "defn ServiceDefn"] ;;
  P [Str "}"] ;;
  (fun g => snd (fold_left (clientMethodStep gen file) (svc_Methods service) ((0, 0)%Z, g))) ;;
  P [Str "func New"; Str clientName; Str "(c ClientConn)"; Str clientName; Str "{"] ;;
  P [Str "return &client_"; Str (svc_GoName service); Str "{c: c, defn: ";
     Str (svc_GoName service); Str "Defn()}"] ;;
  P [Str "}"] ;;
  P [].

(** The server interface of [genService]. *)
Definition genServerInterface (service : Service) : Gen :=
  let serverType := svc_GoName service ++ "Server" in
  P [Str "// "; Str serverType; Str " is the server API for "; Str (svc_GoName service);
     Str " service."] ;;
  when (svc_Deprecated service)
    (P [Str "//"] ;;
     P [Str deprecationComment]) ;;
  Annotate serverType (svc_Location service) ;;
  P [Str "type "; Str serverType; Str " interface {"] ;;
  forEach (svc_Methods service) (fun method =>
    Annotate (serverType ++ "." ++ meth_GoName method) (meth_Location method) ;;
    when (meth_Deprecated method) (P [Str deprecationComment]) ;;
    (fun g => P [Cmts (meth_Leading method); Str (serverSignature g method)] g)) ;;
  P [Str "}"] ;;
  P [].

Definition genService (gen : Plugin) (file : File) (service : Service) : Gen :=
  genClientInterface service ;;
  genClientImpl gen file service ;;
  genServerInterface service ;;
  let serverType := svc_GoName service ++ "Server" in
  let serviceDescVar := svc_GoName service ++ "_ServiceDesc" in
  generateServerFunctions gen file service serverType serviceDescVar ;;
  genServiceDef gen file service.

Definition genLeadingComments (loc : SourceLocation) : Gen :=
  forEach (LeadingDetachedComments loc) (fun s =>
    P [Cmts s] ;;
    P []) ;;
  when (negb (LeadingComments loc =? ""))
    (P [Cmts (LeadingComments loc)] ;;
     P []).

Definition genFieldHelps (gen : Plugin) (file : File) : Gen :=
  let varName := "help_messages" in
  P [Str "var "; Str varName; Str " = map[string]map[string]string{"] ;;
  forEach (Messages file) (fun msg =>
    P [Str QUOTE; Str (ident_GoName (msg_GoIdent msg)); Str QUOTE; Str ": {"] ;;
    P [Str QUOTE; Str "@"; Str QUOTE; Str ":"] ;;
    P [Str (commentsToStr (msg_Leading msg)); Str ","] ;;
    forEach (msg_Fields msg) (fun fld =>
      P [Str QUOTE; Str (field_Name fld); Str QUOTE; Str ": "] ;;
      P [Str (commentsToStr (field_Leading fld)); Str ","]) ;;
    P [Str "},"]) ;;
  P [Str "}"] ;;
  P [].

Definition generateFileContent (gen : Plugin) (file : File) : Gen :=
  match Services file with
  | [] => skip
  | _ =>
      forEach (Services file) (genService gen file) ;;
      genFieldHelps gen file
  end.

(** What [generateFile] writes before the content: the comments of
    the syntax statement, the notice of generated code, the source, the
    comments of the package statement and the package clause. *)
Definition genHeader (file : File) : Gen :=
  genLeadingComments (syntaxLocation file) ;;
  P [Str "// Code generated by protoc-gen-go-svcintf. DO NOT EDIT."] ;;
  ifElse (file_Deprecated file)
    (P [Str "// "; Str (file_Path file); Str " is a deprecated file."])
    (P [Str "// source: "; Str (file_Path file)]) ;;
  P [] ;;
  genLeadingComments (packageLocation file) ;;
  P [Str "package "; Str (GoPackageName file)] ;;
  P [].

(** [generateFile] returns the plugin, which has registered the new
    file if there is one, and the file or nil.  The plugin holds the
    file by reference, so it sees what is written after the
    registration; the model registers the file once it is written. *)
Definition generateFile (gen : Plugin) (file : File) : Plugin * option GeneratedFile :=
  match Services file with
  | [] => (gen, None)
  | _ =>
      let name := GeneratedFilenamePrefix file ++ "_svcintf.pb.go" in
      let g := NewGeneratedFile name (file_GoImportPath file) in
      let g := (genHeader file ;; generateFileContent gen file) g in
      ({| genFiles := goAppend (genFiles gen) g |}, Some g)
  end.

End Generator.

(** ** Reading the generated text *)

(** What an action writes to a new file of the given import path. *)
Definition written (a : Gen) (path : string) : list string :=
  buf (a {| filename := ""; goImportPath := path; buf := []; annotations := [] |}).

(** An action only adds to the buffer, what it adds depends on the
    file through its import path only, and the import path stays. *)
Definition Writer (a : Gen) : Prop :=
  forall g,
    buf (a g) = (buf g ++ written a (goImportPath g))%list /\
    goImportPath (a g) = goImportPath g.

Fixpoint stripPrefix (pre s : string) {struct pre} : option string :=
  match pre with
  | "" => Some s
  | String a pre' =>
      match s with
      | String b s' => if (a =? b)%char then stripPrefix pre' s' else None
      | "" => None
      end
  end.

Definition stripSuffix (suffix s : string) : option string :=
  if strings.HasSuffix s suffix
  then Some (strings.slice s 0 (length s - length suffix))
  else None.

(** The key of a line that opens an entry of a map literal: a quoted
    string followed by [after]. *)
Definition quotedKey (after : string) (line : string) : option string :=
  match line with
  | String c rest => if (c =? DQ)%char then stripSuffix (QUOTE ++ after) rest else None
  | "" => None
  end.

(** A line [key: {] of the map of methods. *)
Definition defnKey (line : string) : option string := quotedKey ": {" line.

Fixpoint untilKey (lines : list string) : list string :=
  match lines with
  | [] => []
  | line :: rest =>
      match defnKey line with
      | Some _ => []
      | None => line :: untilKey rest
      end
  end.

(** The entries of the map of methods: each key with the lines up to
    the next key. *)
Fixpoint defnEntries (lines : list string) : list (string * list string) :=
  match lines with
  | [] => []
  | line :: rest =>
      match defnKey line with
      | Some key => (key, untilKey rest) :: defnEntries rest
      | None => defnEntries rest
      end
  end.

(** The value of a field of a composite literal: what follows
    [name: ] on the first line that starts so. *)
Fixpoint fieldValue (name : string) (lines : list string) : option string :=
  match lines with
  | [] => None
  | line :: rest =>
      match stripPrefix (name ++ ": ") line with
      | Some v => Some v
      | None => fieldValue name rest
      end
  end.

(** A field that holds [true] or [false]. *)
Definition boolField (name : string) (lines : list string) : option bool :=
  match fieldValue name lines with
  | Some v => if (v =? "true,") then Some true
              else if (v =? "false,") then Some false
              else None
  | None => None
  end.

Definition hasField (name : string) (lines : list string) : bool :=
  match fieldValue name lines with Some _ => true | None => false end.

Inductive Shape := Unary | Streaming.

Definition shapeOf (streaming : bool) : Shape := if streaming then Streaming else Unary.

Definition Shape_eqb (a b : Shape) : bool :=
  match a, b with
  | Unary, Unary | Streaming, Streaming => true
  | _, _ => false
  end.

(** The shape of an entry of the map of methods: the two unary handlers
    and no stream handler, or the two stream handlers and no unary one;
    anything else is no shape. *)
Definition entryShape (lines : list string) : option Shape :=
  let sh := hasField "ServerHandler" lines in
  let ch := hasField "ClientHandler" lines in
  let ssh := hasField "ServerStreamHandler" lines in
  let csh := hasField "ClientStreamHandler" lines in
  if sh && ch && negb ssh && negb csh then Some Unary
  else if ssh && csh && negb sh && negb ch then Some Streaming
  else None.










(** A Go identifier, by bytes: letters, digits, the underscore and the
    bytes of letters outside ASCII. *)
Definition identByte (c : ascii) : bool :=
  let n := N_of_ascii c in
  ((48 <=? n) && (n <=? 57) || (65 <=? n) && (n <=? 90) || (n =? 95)
   || (97 <=? n) && (n <=? 122) || (128 <=? n))%N.

Fixpoint allBytes (f : ascii -> bool) (s : string) : bool :=
  match s with
  | "" => true
  | String c rest => f c && allBytes f rest
  end.

Definition goIdentifier (s : string) : bool := allBytes identByte s.

(** The lines of an interface declaration: the line of documentation,
    the notice of deprecation of the service, the head of the type,
    and for every method its notice of deprecation and then the text
    [spec] of its comment and signature. *)
Definition methodLines (spec : Method -> string) (method : Method) : list string :=
  List.app (if meth_Deprecated method then [deprecationComment] else []) [spec method].

Definition interfaceLines (doc head : string) (deprecated : bool)
  (spec : Method -> string) (methods : list Method) : list string :=
  List.app [doc]
    (List.app (if deprecated then ["//"; deprecationComment] else [])
       (head :: List.app (flat_map (methodLines spec) methods) ["}"; ""])).

(** The lines of the entry of a method after the line of its key. *)
Definition methodDefnBody (packageName : string -> string) (svc : Service) (meth : Method)
  (path : string) : list string :=
  tl (written (genMethodDefn packageName svc meth) path).











(** The lines of a text. *)
Definition textLines (chunks : list string) : list string :=
  flat_map (fun chunk => strings.Split chunk LF) chunks.

(** Whether [needle] occurs in [hay] as a run of consecutive elements. *)
Fixpoint startsWith (needle hay : list string) : bool :=
  match needle, hay with
  | [], _ => true
  | x :: needle', y :: hay' => (x =? y) && startsWith needle' hay'
  | _ :: _, [] => false
  end.

Fixpoint occursIn (needle hay : list string) : bool :=
  startsWith needle hay ||
  match hay with
  | [] => false
  | _ :: hay' => occursIn needle hay'
  end.

(** ** A schema to run the generator on *)

(** The last element of an import path: the package name that protogen
    gives an import when no two imports clash. *)
Fixpoint pathBase (p : string) : string :=
  match p with
  | "" => ""
  | String c rest =>
      if strings.ContainsByte rest "/" then pathBase rest
      else if (c =? "/")%char then rest else p
  end.

Definition noLocation : Location := {| SourceFile := "greeter.proto"; Path := [] |}.

Definition noComments : SourceLocation :=
  {| LeadingDetachedComments := []; LeadingComments := "" |}.

Definition helloMessage (name : string) : Message :=
  {| msg_GoIdent := {| ident_GoName := name; ident_GoImportPath := "example.com/greeter" |};
     msg_Leading := "";
     msg_Fields :=
       [ {| field_Name := "name";
            field_Leading := "Name of the user." ++ NL ++ "Must be non-empty." |} ];
     msg_Messages := [] |}.

Definition sayHello (clientStreams serverStreams deprecated : bool) (leading : string) : Method :=
  {| meth_GoName := "SayHello";
     meth_Parent_GoName := "Greeter";
     meth_Input := helloMessage "HelloRequest";
     meth_Output := helloMessage "HelloResponse";
     IsStreamingClient := clientStreams;
     IsStreamingServer := serverStreams;
     meth_Deprecated := deprecated;
     meth_Leading := leading;
     meth_Location := noLocation |}.

Definition greeter (method : Method) : Service :=
  {| svc_GoName := "Greeter";
     svc_Methods := [method];
     svc_Deprecated := false;
     svc_Location := noLocation |}.

Definition deprecatedGreeter (method : Method) : Service :=
  {| svc_GoName := "Greeter";
     svc_Methods := [method];
     svc_Deprecated := true;
     svc_Location := noLocation |}.

Definition greeterFile (services : list Service) : File :=
  {| Services := services;
     Messages := [helloMessage "HelloRequest"; helloMessage "HelloResponse"];
     GeneratedFilenamePrefix := "greeter";
     file_GoImportPath := "example.com/greeter";
     GoPackageName := "greeter";
     file_Path := "greeter.proto";
     file_Deprecated := false;
     syntaxLocation := noComments;
     packageLocation := noComments |}.

Definition noPlugin : Plugin := {| genFiles := [] |}.




(** ** Further readings of the generated text *)

(** The expression that quotes the given lines: every line after an
    opening quote, the lines joined by the escape for a line feed, a
    closing quote, a plus sign and a line feed, and a closing quote at
    the end. *)
Definition literalOfLines (lines : list string) : string :=
  String.concat (BACKSLASH_N ++ QUOTE ++ "+" ++ NL) (map (fun line => QUOTE ++ line) lines)
  ++ QUOTE.

(** The annotations that an action adds to a new file of the given
    import path. *)
Definition annotated (a : Gen) (path : string) : list (string * Location) :=
  annotations (a {| filename := ""; goImportPath := path; buf := []; annotations := [] |}).

(** An action keeps the name and the import path of the file and only
    adds to its buffer and to its annotations, and what it adds depends
    on the file through its import path only. *)
Definition Framed (a : Gen) : Prop :=
  forall g,
    a g = {| filename := filename g;
             goImportPath := goImportPath g;
             buf := List.app (buf g) (written a (goImportPath g));
             annotations := List.app (annotations g) (annotated a (goImportPath g)) |}.





(** How many of the lines are [line]. *)
Definition countLine (line : string) (lines : list string) : nat :=
  List.length (filter (String.eqb line) lines).

(** The names of the stream interfaces of a method. *)
Definition streamClientType (method : Method) : string :=
  meth_Parent_GoName method ++ "_" ++ meth_GoName method ++ "Client".

Definition streamServerType (method : Method) : string :=
  meth_Parent_GoName method ++ "_" ++ meth_GoName method ++ "Server".

(** The lines of a comment, which [protogen.Comments.String] prints
    each after two slashes. *)
Definition commentLines (c : string) : list string :=
  if (c =? "") then [] else strings.Split (strings.TrimSuffix c NL) LF.

(** The text of the notice of deprecation after its two slashes. *)
Definition deprecationText : string := " Deprecated: Do not use.".

(** The names of which the two signatures of a method are made: those
    of the method and of its service, and the package and the name of
    the context and of the two messages. *)
Definition signatureNames (packageName : string -> string) (method : Method) : list string :=
  [ meth_GoName method;
    meth_Parent_GoName method;
    packageName (ident_GoImportPath ctxIdent);
    ident_GoName ctxIdent;
    packageName (ident_GoImportPath (msg_GoIdent (meth_Input method)));
    ident_GoName (msg_GoIdent (meth_Input method));
    packageName (ident_GoImportPath (msg_GoIdent (meth_Output method)));
    ident_GoName (msg_GoIdent (meth_Output method)) ].



(** Whether a line starts with [pre], for some line. *)
Definition anyLineStarts (pre : string) (lines : list string) : bool :=
  existsb (fun line => strings.HasPrefix line pre) lines.

(** The lines that a location with comments stands for at the head of
    the file: every detached comment and then the leading comment, if
    it is not empty, each followed by an empty line. *)
Definition leadingLines (loc : SourceLocation) : list string :=
  List.app
    (flat_map (fun s => [Comments_String s; ""]) (LeadingDetachedComments loc))
    (if (LeadingComments loc =? "") then [] else [Comments_String (LeadingComments loc); ""]).

(** * Properties *)

(** ** Byte strings *)

Section StringFacts.

Lemma append_nil_r (s : string) : s ++ "" = s.
Proof. induction s as [|c s IH]; simpl; congruence. Qed.

Lemma append_assoc (a b c : string) : (a ++ b) ++ c = a ++ (b ++ c).
Proof. induction a as [|x a IH]; simpl; congruence. Qed.

Lemma length_append (a b : string) : length (a ++ b) = (length a + length b)%nat.
Proof. induction a as [|x a IH]; simpl; congruence. Qed.

Lemma substring_all (s : string) : substring 0 (length s) s = s.
Proof. induction s as [|c s IH]; simpl; congruence. Qed.


Lemma substring_append_r (a b : string) :
  substring (length a) (length b) (a ++ b) = b.
Proof.
  induction a as [|x a IH]; simpl.
  - apply substring_all.
  - exact IH.
Qed.

Lemma substring_skip (a b : string) (n m : nat) :
  substring (length a + n) m (a ++ b) = substring n m b.
Proof. induction a as [|x a IH]; simpl; auto. Qed.

Lemma substring_split (s : string) (n : nat) :
  (n <= length s)%nat ->
  s = substring 0 n s ++ substring n (length s - n) s.
Proof.
  revert n; induction s as [|c s IH]; intros [|n] H; simpl in *;
    try reflexivity; try lia.
  - now rewrite substring_all.
  - f_equal. apply IH. lia.
Qed.

Lemma rev_append (a b : string) : strings.rev (a ++ b) = strings.rev b ++ strings.rev a.
Proof.
  induction a as [|x a IH]; simpl.
  - now rewrite append_nil_r.
  - now rewrite IH, append_assoc.
Qed.

Lemma rev_involutive (s : string) : strings.rev (strings.rev s) = s.
Proof.
  induction s as [|c s IH]; simpl; [reflexivity|].
  now rewrite rev_append, IH.
Qed.

Lemma ContainsByte_append (a b : string) (x : ascii) :
  strings.ContainsByte (a ++ b) x = strings.ContainsByte a x || strings.ContainsByte b x.
Proof.
  induction a as [|c a IH]; simpl; [reflexivity|].
  now rewrite IH, orb_assoc.
Qed.

(** A string with the suffix is the rest followed by the suffix. *)
Lemma HasSuffix_split (s suffix : string) :
  strings.HasSuffix s suffix = true ->
  s = strings.slice s 0 (length s - length suffix) ++ suffix.
Proof.
  unfold strings.HasSuffix, strings.slice. intros H.
  apply andb_true_iff in H as [Hlen Heq].
  apply Nat.leb_le in Hlen. apply String.eqb_eq in Heq.
  rewrite Nat.sub_0_r.
  rewrite (substring_split s (length s - length suffix)) at 1 by lia.
  now rewrite Heq.
Qed.

Lemma HasSuffix_append (a suffix : string) : strings.HasSuffix (a ++ suffix) suffix = true.
Proof.
  unfold strings.HasSuffix, strings.slice.
  rewrite length_append. apply andb_true_iff; split.
  - apply Nat.leb_le; lia.
  - replace (length a + length suffix - length suffix)%nat with (length a) by lia.
    replace (length a + length suffix - length a)%nat with (length suffix) by lia.
    rewrite substring_append_r. apply String.eqb_refl.
Qed.


Lemma TrimSuffix_no_newline (s : string) :
  strings.ContainsByte s LF = false -> strings.TrimSuffix s NL = s.
Proof.
  intros H. unfold strings.TrimSuffix.
  destruct (strings.HasSuffix s NL) eqn:E; [|reflexivity].
  apply HasSuffix_split in E. rewrite E in H.
  rewrite ContainsByte_append in H. simpl in H.
  rewrite orb_true_r in H. discriminate.
Qed.

Lemma Split_nonempty (s : string) (sep : ascii) : strings.Split s sep <> [].
Proof.
  destruct s as [|c s]; simpl; [discriminate|].
  destruct (c =? sep)%char; [discriminate|].
  destruct (strings.Split s sep); discriminate.
Qed.

Lemma Split_no_separator (s : string) (sep : ascii) :
  strings.ContainsByte s sep = false -> strings.Split s sep = [s].
Proof.
  induction s as [|c s IH]; simpl; [reflexivity|].
  intros H. apply orb_false_iff in H as [Hc Hs].
  rewrite Hc, (IH Hs). reflexivity.
Qed.

Lemma Split_pieces_clean (s : string) (sep : ascii) :
  Forall (fun piece => strings.ContainsByte piece sep = false) (strings.Split s sep).
Proof.
  induction s as [|c s IH]; simpl.
  - constructor; [reflexivity|constructor].
  - destruct (c =? sep)%char eqn:E.
    + constructor; [reflexivity|exact IH].
    + destruct (strings.Split s sep) as [|piece pieces].
      * constructor; [simpl; now rewrite E|constructor].
      * inversion IH; subst. constructor; [simpl; now rewrite E|assumption].
Qed.

End StringFacts.

(** ** Trimming *)

Section ScanFacts.

Variable w1 : ascii -> bool.
Variable w2 : ascii -> ascii -> bool.
Variable w3 : ascii -> ascii -> ascii -> bool.

Lemma dropRunes_fixed (s : string) :
  strings.startsRune w1 w2 w3 s = false -> strings.dropRunes w1 w2 w3 s = s.
Proof.
  destruct s as [|c [|d [|e s]]]; simpl; try reflexivity.
  - intros H. apply orb_false_iff in H as [-> _]. reflexivity.
  - intros H. apply orb_false_iff in H as [-> H].
    apply orb_false_iff in H as [-> _]. reflexivity.
  - intros H. apply orb_false_iff in H as [-> H].
    apply orb_false_iff in H as [-> ->]. reflexivity.
Qed.

(** What is left is a suffix of the string and starts with no rune
    that is dropped. *)
Lemma dropRunes_spec (n : nat) (s : string) :
  (length s <= n)%nat ->
  strings.startsRune w1 w2 w3 (strings.dropRunes w1 w2 w3 s) = false /\
  exists v, s = v ++ strings.dropRunes w1 w2 w3 s.
Proof.
  revert s.
  induction n as [|n IH]; intros s Hn.
  - destruct s; simpl in Hn; [|lia]. split; [reflexivity|now exists ""].
  - destruct s as [|c r1]; [split; [reflexivity|now exists ""]|].
    simpl in Hn. simpl strings.dropRunes.
    destruct (w1 c) eqn:E1.
    { destruct (IH r1 ltac:(lia)) as [H [v Hv]]. split; [exact H|].
      exists (String c v). simpl. now rewrite <- Hv. }
    destruct r1 as [|d r2].
    { split; [simpl; now rewrite E1|now exists ""]. }
    simpl in Hn. destruct (w2 c d) eqn:E2.
    { destruct (IH r2 ltac:(lia)) as [H [v Hv]]. split; [exact H|].
      exists (String c (String d v)). simpl. now rewrite <- Hv. }
    destruct r2 as [|e r3].
    { split; [simpl; now rewrite E1, E2|now exists ""]. }
    simpl in Hn. destruct (w3 c d e) eqn:E3.
    { destruct (IH r3 ltac:(lia)) as [H [v Hv]]. split; [exact H|].
      exists (String c (String d (String e v))). simpl. now rewrite <- Hv. }
    split; [simpl; now rewrite E1, E2, E3|now exists ""].
Qed.

Lemma dropRunes_starts (s : string) :
  strings.startsRune w1 w2 w3 (strings.dropRunes w1 w2 w3 s) = false.
Proof. exact (proj1 (dropRunes_spec (length s) s (Nat.le_refl _))). Qed.

Lemma dropRunes_suffix (s : string) : exists v, s = v ++ strings.dropRunes w1 w2 w3 s.
Proof. exact (proj2 (dropRunes_spec (length s) s (Nat.le_refl _))). Qed.

Lemma dropRunes_idempotent (s : string) :
  strings.dropRunes w1 w2 w3 (strings.dropRunes w1 w2 w3 s) = strings.dropRunes w1 w2 w3 s.
Proof. apply dropRunes_fixed, dropRunes_starts. Qed.

(** A rune at the start of a prefix is at the start of the string. *)
Lemma startsRune_prefix (p q : string) :
  strings.startsRune w1 w2 w3 (p ++ q) = false -> strings.startsRune w1 w2 w3 p = false.
Proof.
  destruct p as [|c [|d [|e p]]]; simpl; try reflexivity.
  - intros H. destruct (w1 c); [|reflexivity].
    discriminate.
  - intros H. destruct (w1 c); [discriminate|]. simpl in *.
    destruct (w2 c d); [|reflexivity].
    destruct q; discriminate.
  - intros H. exact H.
Qed.

End ScanFacts.

Lemma TrimRight_prefix (s : string) : exists w, s = strings.TrimRight s ++ w.
Proof.
  unfold strings.TrimRight, strings.TrimLeftRev.
  destruct (dropRunes_suffix strings.isSpace1
              (fun e d => strings.isSpace2 d e)
              (fun e d c => strings.isSpace3 c d e) (strings.rev s)) as [v Hv].
  exists (strings.rev v).
  rewrite <- rev_append, <- Hv. symmetry. apply rev_involutive.
Qed.

Lemma TrimRight_idempotent (s : string) :
  strings.TrimRight (strings.TrimRight s) = strings.TrimRight s.
Proof.
  unfold strings.TrimRight, strings.TrimLeftRev.
  now rewrite rev_involutive, dropRunes_idempotent.
Qed.

Lemma TrimSpace_idempotent (s : string) :
  strings.TrimSpace (strings.TrimSpace s) = strings.TrimSpace s.
Proof.
  unfold strings.TrimSpace.
  set (t := strings.TrimLeft s).
  assert (Ht : strings.TrimLeft (strings.TrimRight t) = strings.TrimRight t).
  { unfold strings.TrimLeft. apply dropRunes_fixed.
    destruct (TrimRight_prefix t) as [w Hw].
    apply startsRune_prefix with (q := w). rewrite <- Hw.
    apply dropRunes_starts. }
  rewrite Ht. apply TrimRight_idempotent.
Qed.

(** ** Comment normalizer *)

Lemma findAll_step (c d : ascii) (rest : string) (pos : nat) :
  regexp.findAll pos (String c (String d rest))
  = if negb (c =? LF)%char && (d =? LF)%char
    then [pos; pos + 2; pos; pos + 1; pos + 1; pos + 2]%nat :: regexp.findAll (pos + 2) rest
    else regexp.findAll (pos + 1) (String d rest).
Proof. reflexivity. Qed.

Lemma findAll_no_newline (s : string) (pos : nat) :
  strings.ContainsByte s LF = false -> regexp.findAll pos s = [].
Proof.
  revert pos; induction s as [|c s IH]; intros pos H; [reflexivity|].
  destruct s as [|d rest]; [reflexivity|].
  simpl in H. apply orb_false_iff in H as [_ H].
  rewrite findAll_step.
  pose proof H as H'. simpl in H'. apply orb_false_iff in H' as [Hd _].
  rewrite Hd, andb_false_r. now apply IH.
Qed.

Lemma joinedComment_no_newline (s : string) :
  strings.ContainsByte s LF = false -> joinedComment s = s.
Proof.
  intros H. unfold joinedComment.
  rewrite (TrimSuffix_no_newline s H).
  unfold replaceAllStringSubmatchFunc, regexp.FindAllSubmatchIndex.
  rewrite (findAll_no_newline s 0 H). simpl.
  unfold strings.sliceFrom, strings.slice. rewrite Nat.sub_0_r.
  apply substring_all.
Qed.

(** *** The loop over the matches against the rule of the soft wraps *)

Lemma substring_zero (s : string) (n : nat) : substring n 0 s = "".
Proof.
  revert n; induction s as [|c s IH]; intros [|n]; simpl; auto.
Qed.

Lemma substring_add (s : string) (i a b : nat) :
  substring i (a + b) s = substring i a s ++ substring (i + a) b s.
Proof.
  revert i a; induction s as [|c s IH]; intros i a.
  - destruct i, a, b; reflexivity.
  - destruct i as [|i]; [|exact (IH i a)].
    destruct a as [|a]; [reflexivity|].
    simpl. f_equal. exact (IH 0%nat a).
Qed.

Lemma slice_split (str : string) (i n m : nat) :
  (i <= n)%nat -> (n <= m)%nat ->
  strings.slice str i m = strings.slice str i n ++ strings.slice str n m.
Proof.
  intros Hi Hn. unfold strings.slice.
  replace (m - i)%nat with ((n - i) + (m - n))%nat by lia.
  rewrite substring_add. do 2 f_equal. lia.
Qed.

Lemma slice_empty (str : string) (i : nat) : strings.slice str i i = "".
Proof. unfold strings.slice. rewrite Nat.sub_diag. apply substring_zero. Qed.

Lemma slice_byte (p rest : string) (c : ascii) :
  strings.slice (p ++ String c rest) (length p) (length p + 1) = String c "".
Proof.
  unfold strings.slice.
  replace (length p + 1 - length p)%nat with 1%nat by lia.
  rewrite <- (Nat.add_0_r (length p)) at 1. rewrite substring_skip.
  simpl. now rewrite substring_zero.
Qed.

Lemma joinWraps_step (c d : ascii) (rest : string) :
  joinWraps (String c (String d rest))
  = if negb (c =? LF)%char && (d =? LF)%char
    then String c (String " " (joinWraps rest))
    else String c (joinWraps (String d rest)).
Proof. reflexivity. Qed.

(** After the bytes [p] of [p ++ s] are read, with [result] and
    [lastIndex] as they stand, the loop over the matches in [s] and the
    last line of the function add to [result] the bytes from
    [lastIndex] that are not yet copied, then [s] with its soft wraps
    joined. *)
Lemma replace_loop (n : nat) (s p result : string) (lastIndex : nat) :
  (length s <= n)%nat ->
  (lastIndex <= length p)%nat ->
  (let (result', lastIndex') :=
     fold_left (replaceStep (p ++ s) (fun g => nth 1 g "" ++ " "))
       (regexp.findAll (length p) s) (result, lastIndex) in
   result' ++ strings.sliceFrom (p ++ s) lastIndex')
  = result ++ strings.slice (p ++ s) lastIndex (length p) ++ joinWraps s.
Proof.
  revert s p result lastIndex.
  induction n as [|n IH]; intros s p result lastIndex Hn Hl.
  - destruct s; simpl in Hn; [|lia]. simpl.
    unfold strings.sliceFrom. now rewrite !append_nil_r.
  - destruct s as [|c [|d rest]].
    + simpl. unfold strings.sliceFrom. now rewrite !append_nil_r.
    + simpl. unfold strings.sliceFrom. rewrite length_append. simpl.
      rewrite (slice_split _ lastIndex (length p)) by lia.
      now rewrite slice_byte.
    + rewrite findAll_step, joinWraps_step.
      destruct (negb (c =? LF)%char && (d =? LF)%char).
      * cbn [fold_left replaceStep submatches nth].
        replace (p ++ String c (String d rest))
          with ((p ++ String c (String d "")) ++ rest)
          by (now rewrite append_assoc).
        replace (length p + 2)%nat with (length (p ++ String c (String d "")))
          by (rewrite length_append; reflexivity).
        rewrite IH; [|simpl in Hn; lia|lia].
        rewrite slice_empty. rewrite !append_assoc.
        change (String c (String d "") ++ rest) with (String c (String d rest)).
        rewrite slice_byte. reflexivity.
      * replace (p ++ String c (String d rest))
          with ((p ++ String c "") ++ String d rest)
          by (now rewrite append_assoc).
        replace (length p + 1)%nat with (length (p ++ String c ""))
          by (rewrite length_append; reflexivity).
        rewrite IH; [|simpl in Hn |- *; lia|rewrite length_append; lia].
        rewrite (slice_split _ lastIndex (length p) (length (p ++ String c "")))
          by (rewrite ?length_append; lia).
        rewrite length_append. cbn [length]. rewrite !append_assoc.
        change (String c "" ++ String d rest) with (String c (String d rest)).
        rewrite slice_byte. reflexivity.
Qed.

(** [replaceAllStringSubmatchFunc], with the expression and the
    replacement of [commentsToStr], joins the soft wraps. *)
Lemma replaceAll_joinWraps (s : string) :
  replaceAllStringSubmatchFunc regexp.FindAllSubmatchIndex s (fun g => nth 1 g "" ++ " ")
  = joinWraps s.
Proof.
  unfold replaceAllStringSubmatchFunc, regexp.FindAllSubmatchIndex.
  pose proof (replace_loop (length s) s "" "" 0 (Nat.le_refl _) (Nat.le_refl _)) as H.
  cbn [append length] in H. rewrite H. now rewrite slice_empty.
Qed.

Lemma joinedComment_joinWraps (c : string) :
  joinedComment c = joinWraps (strings.TrimSuffix c NL).
Proof. apply replaceAll_joinWraps. Qed.

Lemma Join_newline (x y : string) (l : list string) :
  strings.ContainsByte (strings.Join (x :: y :: l) NL) LF = true.
Proof.
  unfold strings.Join. cbn [String.concat].
  rewrite !ContainsByte_append. simpl. now rewrite orb_true_r.
Qed.

Lemma writeLines_length (lines : list string) (l i : Z) (b : string) :
  (length b + 2 * List.length lines <= length (writeLines l i lines b))%nat.
Proof.
  revert i b. induction lines as [|c lines IH]; intros i b.
  - simpl. lia.
  - cbn [writeLines List.length].
    destruct (i <? l - 1)%Z;
      (eapply Nat.le_trans; [|apply IH]);
      rewrite !length_append; simpl; lia.
Qed.

(** C5: for the empty comment [commentsToStr] returns the literal of
    the empty string, the two bytes of an opening and a closing double
    quote, and not the empty expression; for no comment at all is the
    expression empty. *)
Theorem commentsToStr_empty :
  commentsToStr "" = String DQ (String DQ "") /\
  length (commentsToStr "") = 2%nat /\
  commentsToStr "" <> "" /\
  (forall comments, (2 <= length (commentsToStr comments))%nat).
Proof.
  repeat split; try discriminate.
  intros comments. unfold commentsToStr. cbv zeta.
  pose proof (Split_nonempty (joinedComment comments) LF) as Hne.
  destruct (strings.Split (joinedComment comments) LF) as [|line lines] eqn:E;
    [contradiction|].
  eapply Nat.le_trans; [|apply writeLines_length].
  cbn [List.length]. lia.
Qed.

Lemma joinWraps_no_newline (s : string) :
  strings.ContainsByte s LF = false -> joinWraps s = s.
Proof.
  intros H. rewrite <- (joinedComment_no_newline s H) at 2.
  now rewrite joinedComment_joinWraps, TrimSuffix_no_newline.
Qed.

Lemma joinWraps_newline_first (s : string) :
  joinWraps (String LF s) = String LF (joinWraps s).
Proof. destruct s as [|d rest]; reflexivity. Qed.

(** A line feed after a line that is not empty becomes a space, and
    the text that follows is handled on its own. *)
Lemma joinWraps_soft_wrap (x rest : string) :
  x <> "" ->
  strings.ContainsByte x LF = false ->
  joinWraps (x ++ NL ++ rest) = x ++ " " ++ joinWraps rest.
Proof.
  induction x as [|c x IH]; [contradiction|].
  intros _ H. simpl in H. apply orb_false_iff in H as [Hc Hx].
  destruct x as [|c' x].
  - change (String c "" ++ NL ++ rest) with (String c (String LF rest)).
    rewrite joinWraps_step, Hc, Ascii.eqb_refl. reflexivity.
  - change (String c (String c' x) ++ NL ++ rest)
      with (String c (String c' (x ++ NL ++ rest))).
    rewrite joinWraps_step.
    pose proof Hx as Hx'. simpl in Hx'. apply orb_false_iff in Hx' as [Hc' _].
    rewrite Hc', andb_false_r.
    change (String c' (x ++ NL ++ rest)) with (String c' x ++ NL ++ rest).
    rewrite IH by (discriminate || assumption). reflexivity.
Qed.

Lemma ContainsByte_rev (s : string) (b : ascii) :
  strings.ContainsByte (strings.rev s) b = strings.ContainsByte s b.
Proof.
  induction s as [|c s IH]; simpl; [reflexivity|].
  rewrite ContainsByte_append, IH. simpl. rewrite orb_false_r. apply orb_comm.
Qed.

(** A text whose last line is not empty does not end with a line feed. *)
Lemma TrimSuffix_last_line (x y : string) :
  y <> "" ->
  strings.ContainsByte y LF = false ->
  strings.TrimSuffix (x ++ y) NL = x ++ y.
Proof.
  intros Hy Hn. unfold strings.TrimSuffix.
  destruct (strings.HasSuffix (x ++ y) NL) eqn:E; [|reflexivity].
  apply HasSuffix_split in E. apply (f_equal strings.rev) in E.
  rewrite !rev_append in E. simpl in E.
  rewrite <- (ContainsByte_rev y) in Hn.
  destruct (strings.rev y) as [|e t] eqn:Ey.
  - apply (f_equal strings.rev) in Ey. rewrite rev_involutive in Ey. contradiction.
  - simpl in E, Hn. injection E as -> _. discriminate.
Qed.

Lemma Split_line (x rest : string) :
  strings.ContainsByte x LF = false ->
  strings.Split (x ++ NL ++ rest) LF = x :: strings.Split rest LF.
Proof.
  induction x as [|c x IH]; [reflexivity|].
  simpl. intros H. apply orb_false_iff in H as [-> H].
  simpl in IH. now rewrite (IH H).
Qed.

Lemma joinedComment_soft_wrap (x y : string) :
  x <> "" -> y <> "" ->
  strings.ContainsByte x LF = false -> strings.ContainsByte y LF = false ->
  joinedComment (x ++ NL ++ y) = x ++ " " ++ y.
Proof.
  intros Hx Hy Hnx Hny. rewrite joinedComment_joinWraps.
  rewrite <- (append_assoc x NL y), (TrimSuffix_last_line (x ++ NL) y) by assumption.
  rewrite append_assoc, joinWraps_soft_wrap by assumption.
  now rewrite joinWraps_no_newline.
Qed.

Lemma joinedComment_paragraph (x y : string) :
  x <> "" -> y <> "" ->
  strings.ContainsByte x LF = false -> strings.ContainsByte y LF = false ->
  joinedComment (x ++ NL ++ NL ++ y) = (x ++ " ") ++ NL ++ y.
Proof.
  intros Hx Hy Hnx Hny. rewrite joinedComment_joinWraps.
  replace (x ++ NL ++ NL ++ y) with ((x ++ NL ++ NL) ++ y)
    by (now rewrite !append_assoc).
  rewrite (TrimSuffix_last_line (x ++ NL ++ NL) y) by assumption.
  rewrite !append_assoc, joinWraps_soft_wrap by assumption.
  change (NL ++ y) with (String LF y).
  now rewrite joinWraps_newline_first, joinWraps_no_newline.
Qed.

(** C4: a soft wrap is the same as a space: ["a\nb"] and ["a b"] give
    the same literal, as do any two lines without line feeds in place
    of [a] and [b]; the blank line of ["a\n\nb"] is kept as the escape
    for a line feed between the two quoted lines, so that the text of
    the literal has the line feed between [a] and [b], and any two such
    lines around a blank line stay two lines. *)
Theorem soft_wrap_invariant :
  commentsToStr ("a" ++ NL ++ "b") = commentsToStr "a b" /\
  commentsToStr "a b" = QUOTE ++ "a b" ++ QUOTE /\
  commentsToStr ("a" ++ NL ++ NL ++ "b")
    = QUOTE ++ "a" ++ BACKSLASH_N ++ QUOTE ++ "+" ++ NL ++ QUOTE ++ "b" ++ QUOTE /\
  normalizedText ("a" ++ NL ++ "b") = normalizedText "a b" /\
  normalizedText ("a" ++ NL ++ NL ++ "b") = "a" ++ NL ++ "b" /\
  (forall x y,
     x <> "" -> y <> "" ->
     strings.ContainsByte x LF = false -> strings.ContainsByte y LF = false ->
     commentsToStr (x ++ NL ++ y) = commentsToStr (x ++ " " ++ y) /\
     normalizedLines (x ++ NL ++ NL ++ y)
     = [strings.TrimSpace (x ++ " "); strings.TrimSpace y]).
Proof.
  do 5 (split; [reflexivity|]).
  intros x y Hx Hy Hnx Hny. split.
  - unfold commentsToStr.
    rewrite (joinedComment_soft_wrap x y Hx Hy Hnx Hny).
    rewrite (joinedComment_no_newline (x ++ " " ++ y)); [reflexivity|].
    rewrite !ContainsByte_append, Hnx, Hny. reflexivity.
  - unfold normalizedLines.
    rewrite (joinedComment_paragraph x y Hx Hy Hnx Hny).
    rewrite Split_line by (rewrite ContainsByte_append, Hnx; reflexivity).
    now rewrite Split_no_separator by assumption.
Qed.

(** C3, as stated, fails: the line feed that stands for
    the blank line of ["a\n\nb"] is a soft wrap to a second pass, which
    turns it into a space.  Nor is [commentsToStr] itself idempotent:
    it quotes its input once more. *)
Lemma normalization_not_idempotent :
  normalizedText ("a" ++ NL ++ NL ++ "b") = "a" ++ NL ++ "b" /\
  normalizedText (normalizedText ("a" ++ NL ++ NL ++ "b")) = "a b" /\
  normalizedText (normalizedText ("a" ++ NL ++ NL ++ "b"))
    <> normalizedText ("a" ++ NL ++ NL ++ "b") /\
  commentsToStr (commentsToStr "a") <> commentsToStr "a".
Proof. repeat split; discriminate. Qed.

(** C3, amended: when the normalized text is one line, that is, no
    blank line of the comment is left in it as a line feed, normalizing
    it again changes nothing. *)
Theorem normalization_idempotent_one_line (c : string) :
  strings.ContainsByte (normalizedText c) LF = false ->
  normalizedText (normalizedText c) = normalizedText c.
Proof.
  intros H.
  assert (Hone : exists x, normalizedText c = strings.TrimSpace x).
  { revert H. unfold normalizedText, normalizedLines.
    pose proof (Split_nonempty (joinedComment c) LF) as Hne.
    destruct (strings.Split (joinedComment c) LF) as [|x [|y l]];
      [contradiction| |]; intros H.
    - now exists x.
    - cbn [map] in H. rewrite Join_newline in H. discriminate. }
  destruct Hone as [x Hx]. rewrite Hx in *.
  unfold normalizedText at 1. unfold normalizedLines.
  rewrite (joinedComment_no_newline _ H), (Split_no_separator _ _ H).
  cbn [map strings.Join String.concat].
  apply TrimSpace_idempotent.
Qed.

Lemma normalization_idempotent_one_line_witness :
  strings.ContainsByte
    (normalizedText (" Name of the user." ++ NL ++ " Must be non-empty." ++ NL)) LF = false /\
  normalizedText (normalizedText (" Name of the user." ++ NL ++ " Must be non-empty." ++ NL))
  = normalizedText (" Name of the user." ++ NL ++ " Must be non-empty." ++ NL).
Proof.
  split; [reflexivity|].
  apply (normalization_idempotent_one_line
           (" Name of the user." ++ NL ++ " Must be non-empty." ++ NL)).
  reflexivity.
Defined.

(** ** Actions on the generated file *)

Section WriterFacts.

Variable packageName : string -> string.

Lemma QualifiedGoIdent_path (g g' : GeneratedFile) (ident : GoIdent) :
  goImportPath g = goImportPath g' ->
  QualifiedGoIdent packageName g ident = QualifiedGoIdent packageName g' ident.
Proof. unfold QualifiedGoIdent. now intros ->. Qed.

Lemma printArg_path (g g' : GeneratedFile) (x : PArg) :
  goImportPath g = goImportPath g' ->
  printArg packageName g x = printArg packageName g' x.
Proof. destruct x; simpl; auto using QualifiedGoIdent_path. Qed.

Lemma clientSignature_path (g g' : GeneratedFile) (method : Method) :
  goImportPath g = goImportPath g' ->
  clientSignature packageName g method = clientSignature packageName g' method.
Proof.
  intros H. unfold clientSignature.
  now rewrite !(QualifiedGoIdent_path g g' _ H).
Qed.

Lemma serverParams_path (g g' : GeneratedFile) (method : Method) :
  goImportPath g = goImportPath g' ->
  serverParams packageName g method = serverParams packageName g' method.
Proof.
  intros H. unfold serverParams.
  now rewrite !(QualifiedGoIdent_path g g' _ H).
Qed.

Lemma serverSignature_path (g g' : GeneratedFile) (method : Method) :
  goImportPath g = goImportPath g' ->
  serverSignature packageName g method = serverSignature packageName g' method.
Proof.
  intros H. unfold serverSignature. now rewrite (serverParams_path g g' _ H).
Qed.

Lemma Writer_P_of (v : GeneratedFile -> list PArg) :
  (forall g g', goImportPath g = goImportPath g' -> v g = v g') ->
  Writer (fun g => P packageName (v g) g).
Proof.
  intros Hv g. split; [|reflexivity].
  unfold written, P, goAppend. simpl.
  rewrite (Hv g {| filename := ""; goImportPath := goImportPath g;
                   buf := []; annotations := [] |} eq_refl).
  set (g0 := {| filename := ""; goImportPath := goImportPath g;
                buf := []; annotations := [] |}).
  assert (E : map (printArg packageName g) (v g0) = map (printArg packageName g0) (v g0)).
  { apply map_ext. intros x. now apply printArg_path. }
  now rewrite E.
Qed.

Lemma Writer_P (v : list PArg) : Writer (P packageName v).
Proof. apply (Writer_P_of (fun _ => v)). reflexivity. Qed.

Lemma Writer_Annotate (symbol : string) (loc : Location) : Writer (Annotate symbol loc).
Proof.
  intros g. split; [|reflexivity].
  unfold written, Annotate. simpl. now rewrite app_nil_r.
Qed.

Lemma Writer_skip : Writer skip.
Proof.
  intros g. split; [|reflexivity].
  unfold written, skip. simpl. now rewrite app_nil_r.
Qed.

Lemma written_seq (a b : Gen) (path : string) :
  Writer a -> Writer b ->
  written (a ;; b) path = (written a path ++ written b path)%list.
Proof.
  intros Ha Hb. unfold written at 1. unfold seq.
  destruct (Hb (a {| filename := ""; goImportPath := path; buf := []; annotations := [] |}))
    as [-> _].
  destruct (Ha {| filename := ""; goImportPath := path; buf := []; annotations := [] |})
    as [_ ->].
  reflexivity.
Qed.

Lemma Writer_seq (a b : Gen) : Writer a -> Writer b -> Writer (a ;; b).
Proof.
  intros Ha Hb g. rewrite (written_seq a b _ Ha Hb). unfold seq.
  destruct (Hb (a g)) as [-> ->]. destruct (Ha g) as [-> ->].
  split; [now rewrite app_assoc|reflexivity].
Qed.

Lemma Writer_when (b : bool) (a : Gen) : Writer a -> Writer (when b a).
Proof. destruct b; simpl; auto using Writer_skip. Qed.

Lemma Writer_ifElse (b : bool) (a a' : Gen) : Writer a -> Writer a' -> Writer (ifElse b a a').
Proof. destruct b; simpl; auto. Qed.

Lemma forEach_cons {A : Type} (x : A) (l : list A) (body : A -> Gen) :
  forEach (x :: l) body = (body x ;; forEach l body).
Proof. reflexivity. Qed.

Lemma Writer_forEach {A : Type} (l : list A) (body : A -> Gen) :
  (forall x, Writer (body x)) -> Writer (forEach l body).
Proof.
  intros H. induction l as [|x l IH].
  - exact Writer_skip.
  - rewrite forEach_cons. now apply Writer_seq.
Qed.

Lemma written_forEach {A : Type} (l : list A) (body : A -> Gen) (path : string) :
  (forall x, Writer (body x)) ->
  written (forEach l body) path = flat_map (fun x => written (body x) path) l.
Proof.
  intros H. induction l as [|x l IH]; [reflexivity|].
  rewrite forEach_cons, written_seq by auto using Writer_forEach.
  now rewrite IH.
Qed.

End WriterFacts.

Ltac writer :=
  cbv zeta;
  repeat match goal with
    | |- Writer (seq _ _) => apply Writer_seq
    | |- Writer (P _ _) => apply Writer_P
    | |- Writer (Annotate _ _) => apply Writer_Annotate
    | |- Writer skip => apply Writer_skip
    | |- Writer (when _ _) => apply Writer_when
    | |- Writer (ifElse _ _ _) => apply Writer_ifElse
    | |- Writer (forEach _ _) => apply Writer_forEach; intros ?
    end.

Section GeneratorWrites.

Variable packageName : string -> string.

Lemma Writer_genMethodDefn (svc : Service) (meth : Method) :
  Writer (genMethodDefn packageName svc meth).
Proof. unfold genMethodDefn. writer. Qed.

Lemma Writer_genServiceDef (gen : Plugin) (file : File) (svc : Service) :
  Writer (genServiceDef packageName gen file svc).
Proof. unfold genServiceDef. writer. apply Writer_genMethodDefn. Qed.

Lemma Writer_clientSpec (method : Method) :
  Writer (fun g => P packageName
                     [Cmts (meth_Leading method); Str (clientSignature packageName g method)] g).
Proof.
  apply (Writer_P_of packageName
           (fun g => [Cmts (meth_Leading method); Str (clientSignature packageName g method)])).
  intros g g' H. now rewrite (clientSignature_path packageName g g' method H).
Qed.

Lemma Writer_serverSpec (method : Method) :
  Writer (fun g => P packageName
                     [Cmts (meth_Leading method); Str (serverSignature packageName g method)] g).
Proof.
  apply (Writer_P_of packageName
           (fun g => [Cmts (meth_Leading method); Str (serverSignature packageName g method)])).
  intros g g' H. now rewrite (serverSignature_path packageName g g' method H).
Qed.

Lemma Writer_genClientInterface (service : Service) :
  Writer (genClientInterface packageName service).
Proof. unfold genClientInterface. writer. apply Writer_clientSpec. Qed.

Lemma Writer_genServerInterface (service : Service) :
  Writer (genServerInterface packageName service).
Proof. unfold genServerInterface. writer. apply Writer_serverSpec. Qed.

Lemma Writer_genFieldHelps (gen : Plugin) (file : File) :
  Writer (genFieldHelps packageName gen file).
Proof. unfold genFieldHelps. writer. Qed.

End GeneratorWrites.

(** ** Reading keys and fields *)

Lemma written_P (packageName : string -> string) (v : list PArg) (path : string) :
  written (P packageName v) path
  = [cat (map (printArg packageName (NewGeneratedFile "" path)) v)].
Proof. reflexivity. Qed.

Lemma written_P_of (packageName : string -> string) (v : GeneratedFile -> list PArg)
  (path : string) :
  written (fun g => P packageName (v g) g) path
  = [cat (map (printArg packageName (NewGeneratedFile "" path)) (v (NewGeneratedFile "" path)))].
Proof. reflexivity. Qed.

Lemma written_Annotate (symbol : string) (loc : Location) (path : string) :
  written (Annotate symbol loc) path = [].
Proof. reflexivity. Qed.

Ltac written_steps :=
  cbv zeta;
  repeat (rewrite written_seq by writer);
  rewrite ?written_P, ?written_Annotate;
  cbn [map cat printArg app].








(** ** The entry of a method in the map of methods *)

Section MethodDefn.

Variable packageName : string -> string.

Lemma written_genMethodDefn (svc : Service) (meth : Method) (path : string) :
  written (genMethodDefn packageName svc meth) path
  = (QUOTE ++ meth_GoName meth ++ QUOTE ++ ": {") :: methodDefnBody packageName svc meth path.
Proof.
  unfold methodDefnBody, genMethodDefn. written_steps. reflexivity.
Qed.

Ltac entry_body :=
  unfold methodDefnBody, genMethodDefn;
  match goal with
  | |- context [IsStreamingServer ?m] => destruct (IsStreamingServer m)
  end;
  cbn [ifElse negb]; written_steps; cbn [tl].




Lemma methodDefnBody_shape_last (svc : Service) (meth : Method) (path : string) :
  entryShape (methodDefnBody packageName svc meth path ++ ["},"; "}"; "}"; ""])
  = Some (shapeOf (IsStreamingServer meth)).
Proof. entry_body; reflexivity. Qed.

Lemma written_genServiceDef (gen : Plugin) (file : File) (svc : Service) (path : string) :
  written (genServiceDef packageName gen file svc) path
  = List.app
      [ "func " ++ svc_GoName svc ++ "Defn() ServiceDefn { ";
        "return ServiceDefn {";
        "Name: " ++ QUOTE ++ svc_GoName svc ++ QUOTE ++ ",";
        "Methods: map[string]MethodDefn{" ]
      (List.app
         (flat_map (fun meth => (QUOTE ++ meth_GoName meth ++ QUOTE ++ ": {")
                                :: methodDefnBody packageName svc meth path)
            (svc_Methods svc))
         ["},"; "}"; "}"; ""]).
Proof.
  unfold genServiceDef.
  pose proof (Writer_genMethodDefn packageName svc) as Hw.
  cbv zeta.
  repeat (rewrite written_seq
            by (writer; apply Writer_genMethodDefn)).
  rewrite written_forEach by exact Hw.
  rewrite !written_P. cbn [map cat printArg app].
  do 4 f_equal. f_equal.
  apply flat_map_ext. intros meth. apply written_genMethodDefn.
Qed.


End MethodDefn.

(** ** Shapes *)

Lemma HasSuffix_skip (a b suffix : string) :
  (length suffix <= length b)%nat ->
  strings.HasSuffix (a ++ b) suffix = strings.HasSuffix b suffix.
Proof.
  intros H. unfold strings.HasSuffix, strings.slice.
  rewrite length_append.
  replace (length suffix <=? length a + length b)%nat with true
    by (symmetry; apply Nat.leb_le; lia).
  replace (length suffix <=? length b)%nat with true
    by (symmetry; apply Nat.leb_le; lia).
  replace (length a + length b - length suffix)%nat
    with (length a + (length b - length suffix))%nat by lia.
  rewrite substring_skip.
  replace (length a + length b - (length a + (length b - length suffix)))%nat
    with (length b - (length b - length suffix))%nat by lia.
  reflexivity.
Qed.



Section Shapes.

Variable packageName : string -> string.



Lemma Writer_clientFunc (implName : string) (method : Method) :
  Writer (fun g => P packageName
                     [Str "func (c *"; Str implName; Str ") ";
                      Str (clientSignature packageName g method); Str "{"] g).
Proof.
  apply (Writer_P_of packageName
           (fun g => [Str "func (c *"; Str implName; Str ") ";
                      Str (clientSignature packageName g method); Str "{"])).
  intros g g' H. now rewrite (clientSignature_path packageName g g' method H).
Qed.

Lemma Writer_genClientMethod (gen : Plugin) (file : File) (method : Method) (index : Z) :
  Writer (genClientMethod packageName gen file method index).
Proof. unfold genClientMethod. writer. apply Writer_clientFunc. Qed.


End Shapes.





(** ** The interfaces *)

Lemma written_when (b : bool) (a : Gen) (path : string) :
  written (when b a) path = if b then written a path else [].
Proof. now destruct b. Qed.


Lemma allBytes_ContainsByte (f : ascii -> bool) (s : string) (x : ascii) :
  allBytes f s = true -> f x = false -> strings.ContainsByte s x = false.
Proof.
  intros Hs Hx. induction s as [|c s IH]; simpl in *; [reflexivity|].
  apply andb_true_iff in Hs as [Hc Hs]. rewrite (IH Hs), orb_false_r.
  destruct (Ascii.eqb_spec c x) as [->|]; [congruence|reflexivity].
Qed.

Lemma goIdentifier_no_newline (s : string) :
  goIdentifier s = true -> strings.ContainsByte s LF = false.
Proof. intros H. now apply (allBytes_ContainsByte identByte). Qed.






(** The text of a comment is its lines, each after two slashes and
    ended by a line feed. *)
Lemma Comments_lines (lines : list string) (b : string) :
  fold_left (fun b line => ((b ++ "//") ++ line) ++ NL) lines b
  = b ++ fold_right (fun line text => "//" ++ line ++ NL ++ text) "" lines.
Proof.
  revert b; induction lines as [|line lines IH]; intros b; simpl.
  - now rewrite append_nil_r.
  - rewrite IH, !append_assoc. reflexivity.
Qed.








Section Interfaces.

Variable packageName : string -> string.

Lemma written_genClientInterface (service : Service) (path : string) :
  written (genClientInterface packageName service) path
  = interfaceLines
      ("// " ++ (svc_GoName service ++ "Client") ++ " is the client API for "
         ++ svc_GoName service ++ " service.")
      ("type " ++ (svc_GoName service ++ "Client") ++ " interface {")
      (svc_Deprecated service)
      (fun method => Comments_String (meth_Leading method)
                     ++ clientSignature packageName (NewGeneratedFile "" path) method)
      (svc_Methods service).
Proof.
  unfold genClientInterface, interfaceLines. cbv zeta.
  pose proof Writer_clientSpec as Hs.
  repeat (rewrite written_seq by (writer; apply Hs)).
  rewrite written_forEach by (intros; writer; apply Hs).
  rewrite written_when, !written_P, written_Annotate.
  rewrite written_seq by writer. rewrite !written_P.
  cbn [map cat printArg app]. do 2 f_equal.
  destruct (svc_Deprecated service); cbn [app]; do 2 f_equal;
    apply flat_map_ext; intros method;
    repeat (rewrite written_seq by (writer; apply Hs));
    rewrite written_when, written_P, written_Annotate, written_P_of;
    reflexivity.
Qed.

Lemma written_genServerInterface (service : Service) (path : string) :
  written (genServerInterface packageName service) path
  = interfaceLines
      ("// " ++ (svc_GoName service ++ "Server") ++ " is the server API for "
         ++ svc_GoName service ++ " service.")
      ("type " ++ (svc_GoName service ++ "Server") ++ " interface {")
      (svc_Deprecated service)
      (fun method => Comments_String (meth_Leading method)
                     ++ serverSignature packageName (NewGeneratedFile "" path) method)
      (svc_Methods service).
Proof.
  unfold genServerInterface, interfaceLines. cbv zeta.
  pose proof Writer_serverSpec as Hs.
  repeat (rewrite written_seq by (writer; apply Hs)).
  rewrite written_forEach by (intros; writer; apply Hs).
  rewrite written_when, !written_P, written_Annotate.
  rewrite written_seq by writer. rewrite !written_P.
  cbn [map cat printArg app]. do 2 f_equal.
  destruct (svc_Deprecated service); cbn [app]; do 2 f_equal;
    apply flat_map_ext; intros method;
    repeat (rewrite written_seq by (writer; apply Hs));
    rewrite written_when, written_P, written_Annotate, written_P_of;
    reflexivity.
Qed.



End Interfaces.


(** ** The whole service and the whole file *)

Lemma Writer_ext (a b : Gen) : (forall g, a g = b g) -> Writer a -> Writer b.
Proof.
  intros E H g. unfold written. rewrite <- !E. apply H.
Qed.

Section WholeFile.

Variable packageName : string -> string.

Lemma Writer_clientMethods (gen : Plugin) (file : File) (methods : list Method)
  (methodIndex streamIndex : Z) :
  Writer (fun g =>
     snd (fold_left (clientMethodStep packageName gen file) methods
            ((methodIndex, streamIndex), g))).
Proof.
  revert methodIndex streamIndex.
  induction methods as [|method methods IH]; intros methodIndex streamIndex.
  - exact Writer_skip.
  - destruct (negb (IsStreamingServer method) && negb (IsStreamingClient method)) eqn:E.
    + apply (Writer_ext
               (genClientMethod packageName gen file method methodIndex ;;
                (fun g => snd (fold_left (clientMethodStep packageName gen file) methods
                                 ((methodIndex + 1, streamIndex)%Z, g))))).
      * intros g. unfold seq. cbn [fold_left clientMethodStep]. now rewrite E.
      * apply Writer_seq; [apply Writer_genClientMethod|apply IH].
    + apply (Writer_ext
               (genClientMethod packageName gen file method streamIndex ;;
                (fun g => snd (fold_left (clientMethodStep packageName gen file) methods
                                 ((methodIndex, streamIndex + 1)%Z, g))))).
      * intros g. unfold seq. cbn [fold_left clientMethodStep]. now rewrite E.
      * apply Writer_seq; [apply Writer_genClientMethod|apply IH].
Qed.

Lemma Writer_genClientImpl (gen : Plugin) (file : File) (service : Service) :
  Writer (genClientImpl packageName gen file service).
Proof.
  unfold genClientImpl. writer. apply Writer_clientMethods.
Qed.

Lemma Writer_genServerMethod (gen : Plugin) (file : File) (method : Method)
  (formatter : string -> string) :
  Writer (fun g => snd (genServerMethod packageName gen file method formatter g)).
Proof.
  unfold genServerMethod. cbv zeta.
  destruct (negb (IsStreamingClient method) && negb (IsStreamingServer method)).
  - exact Writer_skip.
  - cbn [snd].
    match goal with |- Writer (fun g => ?a g) => change (Writer a) end.
    writer.
Qed.

Lemma Writer_serverMethods (gen : Plugin) (file : File) (methods : list Method)
  (handlerNames : list string) :
  Writer (fun g =>
     snd (fold_left (serverMethodStep packageName gen file) methods (handlerNames, g))).
Proof.
  revert handlerNames.
  induction methods as [|method methods IH]; intros handlerNames.
  - exact Writer_skip.
  - apply (Writer_ext
             ((fun g => snd (genServerMethod packageName gen file method
                               (fun hname => hname) g)) ;;
              (fun g => snd (fold_left (serverMethodStep packageName gen file) methods
                               (goAppend handlerNames (genServerMethod_hname method), g))))).
    + intros g. unfold seq. cbn [fold_left serverMethodStep]. unfold genServerMethod.
      destruct (negb (IsStreamingClient method) && negb (IsStreamingServer method));
        reflexivity.
    + apply Writer_seq; [apply Writer_genServerMethod|apply IH].
Qed.

Lemma Writer_generateServerFunctions (gen : Plugin) (file : File) (service : Service)
  (serverType serviceDescVar : string) :
  Writer (generateServerFunctions packageName gen file service serverType serviceDescVar).
Proof. unfold generateServerFunctions. apply Writer_serverMethods. Qed.

Lemma Writer_genService (gen : Plugin) (file : File) (service : Service) :
  Writer (genService packageName gen file service).
Proof.
  unfold genService. writer;
    auto using Writer_genClientInterface, Writer_genClientImpl,
      Writer_genServerInterface, Writer_generateServerFunctions, Writer_genServiceDef.
Qed.

(** What [genService] writes: the client interface, the client, the
    server interface, the stream interfaces of the server and the
    definition of the service, in this order. *)
Lemma written_genService (gen : Plugin) (file : File) (service : Service) (path : string) :
  written (genService packageName gen file service) path
  = List.app (written (genClientInterface packageName service) path)
      (List.app (written (genClientImpl packageName gen file service) path)
         (List.app (written (genServerInterface packageName service) path)
            (List.app
               (written (generateServerFunctions packageName gen file service
                           (svc_GoName service ++ "Server")
                           (svc_GoName service ++ "_ServiceDesc")) path)
               (written (genServiceDef packageName gen file service) path)))).
Proof.
  unfold genService. cbv zeta.
  repeat (rewrite written_seq
            by (writer;
                auto using Writer_genClientInterface, Writer_genClientImpl,
                  Writer_genServerInterface, Writer_generateServerFunctions,
                  Writer_genServiceDef)).
  reflexivity.
Qed.

Lemma Writer_generateFileContent (gen : Plugin) (file : File) :
  Writer (generateFileContent packageName gen file).
Proof.
  unfold generateFileContent. destruct (Services file); [exact Writer_skip|].
  writer; auto using Writer_genService, Writer_genFieldHelps.
Qed.

(** What [generateFileContent] writes for a file with services: the
    services in the order of the file, then the help table. *)
Lemma written_generateFileContent (gen : Plugin) (file : File) (path : string) :
  Services file <> [] ->
  written (generateFileContent packageName gen file) path
  = List.app
      (flat_map (fun service => written (genService packageName gen file service) path)
         (Services file))
      (written (genFieldHelps packageName gen file) path).
Proof.
  intros H. unfold generateFileContent.
  destruct (Services file) as [|service services] eqn:E; [contradiction|].
  rewrite written_seq
    by (writer; auto using Writer_genService, Writer_genFieldHelps).
  now rewrite written_forEach by (intros; apply Writer_genService).
Qed.

End WholeFile.



(** ** Deprecation *)

Lemma startsWith_app (needle rest : list string) : startsWith needle (needle ++ rest) = true.
Proof.
  induction needle as [|x needle IH]; simpl; [reflexivity|].
  now rewrite String.eqb_refl, IH.
Qed.

Lemma occursIn_spec (needle hay : list string) :
  (exists before after, hay = (before ++ needle ++ after)%list) ->
  occursIn needle hay = true.
Proof.
  intros (before & after & ->).
  induction before as [|x before IH].
  - cbn [app]. pose proof (startsWith_app needle after) as H.
    destruct (needle ++ after)%list; simpl; now rewrite H.
  - cbn [app occursIn]. rewrite IH. apply orb_true_r.
Qed.

(** C7, as stated, fails for a deprecated method: its
    notice of deprecation is the line before its comment, not the line
    after it. *)
Lemma deprecated_method_notice_precedes_comment :
  textLines
    (written (genClientInterface pathBase
                (greeter (sayHello false false true (" Says hello." ++ NL))))
       "example.com/greeter")
  = [ "// GreeterClient is the client API for Greeter service.";
      "type GreeterClient interface {";
      "// Deprecated: Do not use.";
      "// Says hello.";
      "SayHello(ctx context.Context, in *HelloRequest, out *HelloResponse) (error)";
      "}";
      "" ] /\
  ~ (exists before after,
       textLines
         (written (genClientInterface pathBase
                     (greeter (sayHello false false true (" Says hello." ++ NL))))
            "example.com/greeter")
       = (before ++ ["// Says hello."; deprecationComment] ++ after)%list).
Proof.
  split; [reflexivity|].
  intros H. apply occursIn_spec in H. vm_compute in H. discriminate.
Qed.

Lemma interfaceLines_service (doc head : string) (spec : Method -> string)
  (methods : list Method) :
  exists rest,
    interfaceLines doc head true spec methods
    = doc :: "//" :: deprecationComment :: head :: rest.
Proof. unfold interfaceLines. eexists. reflexivity. Qed.

Lemma interfaceLines_method (doc head : string) (deprecated : bool)
  (spec : Method -> string) (before after : list Method) (method : Method) :
  meth_Deprecated method = true ->
  exists above below,
    interfaceLines doc head deprecated spec (before ++ method :: after)
    = (above ++ [deprecationComment; spec method] ++ below)%list.
Proof.
  intros H. unfold interfaceLines.
  exists (doc :: (if deprecated then ["//"; deprecationComment] else [])
          ++ head :: flat_map (methodLines spec) before)%list.
  exists (flat_map (methodLines spec) after ++ ["}"; ""])%list.
  rewrite flat_map_app. cbn [flat_map]. unfold methodLines at 2. rewrite H.
  cbn [app]. repeat (rewrite <- app_assoc; cbn [app]). reflexivity.
Qed.

(** C7, amended: a deprecated service has the notice of deprecation in
    both interface declarations, after the line of documentation that
    the generator writes and a line of two slashes, and before the head
    of the type; a deprecated method has the notice in both
    declarations immediately before the text of its leading comment and
    signature. *)
Theorem deprecation_notice_placement
  (packageName : string -> string) (service : Service) (path : string) :
  (svc_Deprecated service = true ->
   (exists rest,
      written (genClientInterface packageName service) path
      = ("// " ++ (svc_GoName service ++ "Client") ++ " is the client API for "
           ++ svc_GoName service ++ " service.")
        :: "//" :: deprecationComment
        :: ("type " ++ (svc_GoName service ++ "Client") ++ " interface {") :: rest) /\
   (exists rest,
      written (genServerInterface packageName service) path
      = ("// " ++ (svc_GoName service ++ "Server") ++ " is the server API for "
           ++ svc_GoName service ++ " service.")
        :: "//" :: deprecationComment
        :: ("type " ++ (svc_GoName service ++ "Server") ++ " interface {") :: rest)) /\
  (forall before method after,
     svc_Methods service = (before ++ method :: after)%list ->
     meth_Deprecated method = true ->
     (exists above below,
        written (genClientInterface packageName service) path
        = List.app above
            (deprecationComment
             :: (Comments_String (meth_Leading method)
                 ++ clientSignature packageName (NewGeneratedFile "" path) method)
             :: below)) /\
     (exists above below,
        written (genServerInterface packageName service) path
        = List.app above
            (deprecationComment
             :: (Comments_String (meth_Leading method)
                 ++ serverSignature packageName (NewGeneratedFile "" path) method)
             :: below))).
Proof.
  rewrite written_genClientInterface, written_genServerInterface.
  split.
  - intros ->. split; apply interfaceLines_service.
  - intros before method after -> H. split.
    + apply (interfaceLines_method _ _ _
               (fun method => Comments_String (meth_Leading method)
                              ++ clientSignature packageName (NewGeneratedFile "" path) method)
               before after method H).
    + apply (interfaceLines_method _ _ _
               (fun method => Comments_String (meth_Leading method)
                              ++ serverSignature packageName (NewGeneratedFile "" path) method)
               before after method H).
Qed.

Lemma deprecation_notice_placement_witness :
  svc_Deprecated (deprecatedGreeter (sayHello false false true (" Says hello." ++ NL))) = true /\
  svc_Methods (deprecatedGreeter (sayHello false false true (" Says hello." ++ NL)))
  = ([] ++ sayHello false false true (" Says hello." ++ NL) :: [])%list /\
  meth_Deprecated (sayHello false false true (" Says hello." ++ NL)) = true /\
  (exists rest,
     written (genClientInterface pathBase
                (deprecatedGreeter (sayHello false false true (" Says hello." ++ NL))))
       "example.com/greeter"
     = "// GreeterClient is the client API for Greeter service."
       :: "//" :: deprecationComment :: "type GreeterClient interface {" :: rest) /\
  (exists above below,
     written (genClientInterface pathBase
                (deprecatedGreeter (sayHello false false true (" Says hello." ++ NL))))
       "example.com/greeter"
     = List.app above
         (deprecationComment
          :: (Comments_String (" Says hello." ++ NL)
              ++ "SayHello(ctx context.Context, in *HelloRequest, out *HelloResponse) (error)")
          :: below)).
Proof.
  pose proof (deprecation_notice_placement pathBase
                (deprecatedGreeter (sayHello false false true (" Says hello." ++ NL)))
                "example.com/greeter") as [Hsvc Hmeth].
  split; [reflexivity|]. split; [reflexivity|]. split; [reflexivity|]. split.
  - exact (proj1 (Hsvc eq_refl)).
  - exact (proj1 (Hmeth [] (sayHello false false true (" Says hello." ++ NL)) []
                    eq_refl eq_refl)).
Defined.

(** ** The help table *)

Section HelpTable.

Variable packageName : string -> string.






End HelpTable.



(** ** The file *)

(** C10: for a file without services [generateFile] returns nil and
    leaves the plugin as it was, with no new file, whatever messages
    the file has. *)
Theorem generateFile_no_services
  (packageName : string -> string) (gen : Plugin) (file : File) :
  Services file = [] ->
  generateFile packageName gen file = (gen, None).
Proof. unfold generateFile. now intros ->. Qed.

Lemma generateFile_no_services_witness :
  Services (greeterFile []) = [] /\
  Messages (greeterFile []) <> [] /\
  generateFile pathBase noPlugin (greeterFile []) = (noPlugin, None).
Proof.
  split; [reflexivity|]. split; [discriminate|].
  apply (generateFile_no_services pathBase noPlugin (greeterFile [])).
  reflexivity.
Defined.

Lemma Writer_genHeader (packageName : string -> string) (file : File) :
  Writer (genHeader packageName file).
Proof. unfold genHeader, genLeadingComments. writer. Qed.

(** ** The scenarios of the specification *)

Example field_comment_scenario :
  commentsToStr ("Name of the user." ++ NL ++ "Must be non-empty.")
  = QUOTE ++ "Name of the user. Must be non-empty." ++ QUOTE.
Proof. reflexivity. Qed.

Example greeter_unary_scenario :
  written (genClientInterface pathBase (greeter (sayHello false false false "")))
    "example.com/greeter"
  = [ "// GreeterClient is the client API for Greeter service.";
      "type GreeterClient interface {";
      "SayHello(ctx context.Context, in *HelloRequest, out *HelloResponse) (error)";
      "}"; "" ] /\
  written (genServerInterface pathBase (greeter (sayHello false false false "")))
    "example.com/greeter"
  = [ "// GreeterServer is the server API for Greeter service.";
      "type GreeterServer interface {";
      "SayHello(context.Context, *HelloRequest, *HelloResponse) error";
      "}"; "" ].
Proof. split; reflexivity. Qed.

Example greeter_server_streaming_scenario :
  written (genClientMethod pathBase noPlugin
             (greeterFile [greeter (sayHello false true false "")])
             (sayHello false true false "") 0) "example.com/greeter"
  = [ "type Greeter_SayHelloClient interface {";
      "Recv(*HelloResponse) error";
      "}"; "";
      "func (c *client_Greeter) SayHello(ctx context.Context, in *HelloRequest) "
        ++ "(Greeter_SayHelloClient,error){";
      "const method = " ++ QUOTE ++ "SayHello" ++ QUOTE;
      "inner, err := c.defn.Methods[method].ClientStreamHandler(c.c, ctx, in)";
      "if err != nil { return nil, err } ";
      "return streamerImpl[*HelloResponse]{c: inner}, nil";
      "}"; "" ] /\
  map (fun e => (fst e, boolField "IsStreaming" (snd e), entryShape (snd e)))
    (defnEntries
       (written (genServiceDef pathBase noPlugin
                   (greeterFile [greeter (sayHello false true false "")])
                   (greeter (sayHello false true false "")))
          "example.com/greeter"))
  = [("SayHello", Some true, Some Streaming)].
Proof. split; reflexivity. Qed.

(** * Further properties *)

(** ** The loop over the matches and the lines of the literal *)

Lemma joinWraps_length (n : nat) (s : string) :
  (length s <= n)%nat -> length (joinWraps s) = length s.
Proof.
  revert s. induction n as [|n IH]; intros s Hn.
  - destruct s; [reflexivity|simpl in Hn; lia].
  - destruct s as [|c [|d rest]]; try reflexivity.
    rewrite joinWraps_step.
    destruct (negb (c =? LF)%char && (d =? LF)%char); cbn [length]; f_equal.
    + f_equal. apply IH. simpl in Hn. lia.
    + apply (IH (String d rest)). simpl in Hn |- *. lia.
Qed.

(** X1: [replaceAllStringSubmatchFunc] returns the string as it is
    when there is no match; with the expression and the replacement of
    [commentsToStr] it turns every line feed that follows another byte
    into a space, in one pass, and so keeps the length of the text. *)
Theorem replaceAll_joins_soft_wraps :
  (forall str repl, replaceAllStringSubmatchFunc (fun _ => []) str repl = str) /\
  (forall str,
     replaceAllStringSubmatchFunc regexp.FindAllSubmatchIndex str
       (fun g => nth 1 g "" ++ " ")
     = joinWraps str) /\
  (forall str,
     length (replaceAllStringSubmatchFunc regexp.FindAllSubmatchIndex str
               (fun g => nth 1 g "" ++ " "))
     = length str).
Proof.
  split; [|split].
  - intros str repl. unfold replaceAllStringSubmatchFunc. cbn [fold_left append].
    unfold strings.sliceFrom, strings.slice. rewrite Nat.sub_0_r. apply substring_all.
  - apply replaceAll_joinWraps.
  - intros str. rewrite replaceAll_joinWraps.
    apply (joinWraps_length (length str)). apply Nat.le_refl.
Qed.

Lemma writeLines_cons (l i : Z) (c : string) (rest : list string) (b : string) :
  writeLines l i (c :: rest) b
  = writeLines l (i + 1) rest
      (if (i <? l - 1)%Z
       then ((((b ++ QUOTE) ++ strings.TrimSpace c) ++ BACKSLASH_N ++ QUOTE) ++ "+") ++ NL
       else ((b ++ QUOTE) ++ strings.TrimSpace c) ++ QUOTE).
Proof. cbn [writeLines]. now destruct (i <? l - 1)%Z. Qed.

Lemma writeLines_literal (lines : list string) (line : string) (l i : Z) (b : string) :
  l = (i + Z.of_nat (List.length (line :: lines)))%Z ->
  writeLines l i (line :: lines) b
  = b ++ literalOfLines (map strings.TrimSpace (line :: lines)).
Proof.
  revert line i b. induction lines as [|line' lines IH]; intros line i b Hl.
  - rewrite writeLines_cons. cbn [writeLines List.length] in *.
    replace (i <? l - 1)%Z with false by (symmetry; apply Z.ltb_ge; lia).
    unfold literalOfLines. cbn [map String.concat]. now rewrite !append_assoc.
  - rewrite writeLines_cons.
    replace (i <? l - 1)%Z with true
      by (symmetry; apply Z.ltb_lt; cbn [List.length] in Hl; lia).
    rewrite (IH line' (i + 1)%Z) by (cbn [List.length] in Hl |- *; lia).
    unfold literalOfLines. cbn [map String.concat]. now rewrite !append_assoc.
Qed.

(** X2: the expression that [commentsToStr] returns is made of the
    lines of the joined text, each trimmed and after an opening quote;
    every line but the last is closed by the escape for a line feed, a
    quote, a plus sign and a line feed, and the last by a quote. *)
Theorem commentsToStr_literal (comments : string) :
  commentsToStr comments = literalOfLines (normalizedLines comments).
Proof.
  unfold commentsToStr, normalizedLines. cbv zeta.
  pose proof (Split_nonempty (joinedComment comments) LF) as Hne.
  destruct (strings.Split (joinedComment comments) LF) as [|line lines]; [contradiction|].
  replace (Z.of_nat (List.length (line :: lines)) =? 0)%Z with false
    by (symmetry; apply Z.eqb_neq; cbn [List.length]; lia).
  rewrite writeLines_literal by lia. reflexivity.
Qed.

Lemma ContainsByte_TrimSpace (s : string) (b : ascii) :
  strings.ContainsByte s b = false -> strings.ContainsByte (strings.TrimSpace s) b = false.
Proof.
  intros H. unfold strings.TrimSpace.
  destruct (dropRunes_suffix strings.isSpace1 strings.isSpace2 strings.isSpace3 s)
    as [v Hv].
  fold (strings.TrimLeft s) in Hv.
  destruct (TrimRight_prefix (strings.TrimLeft s)) as [w Hw].
  rewrite Hv, Hw, !ContainsByte_append in H.
  apply orb_false_iff in H as [_ H]. now apply orb_false_iff in H as [H _].
Qed.

(** X3: every line that [commentsToStr] quotes is free of line feeds,
    so that a quoted line stays on one line of the generated file, and
    has no white space left at either end. *)
Theorem normalizedLines_clean (comments : string) :
  Forall (fun line => strings.ContainsByte line LF = false /\ strings.TrimSpace line = line)
    (normalizedLines comments).
Proof.
  unfold normalizedLines.
  pose proof (Split_pieces_clean (joinedComment comments) LF) as H.
  induction H as [|piece pieces Hp _ IH]; cbn [map]; constructor; [|exact IH].
  split; [now apply ContainsByte_TrimSpace|apply TrimSpace_idempotent].
Qed.

(** X4: a comment of one line is quoted as it is, trimmed: no byte of
    it is escaped, neither a double quote nor a backslash. *)
Theorem commentsToStr_one_line (comments : string) :
  strings.ContainsByte comments LF = false ->
  commentsToStr comments = QUOTE ++ strings.TrimSpace comments ++ QUOTE.
Proof.
  intros H. unfold commentsToStr.
  rewrite (joinedComment_no_newline _ H), (Split_no_separator _ _ H).
  cbn [List.length Z.of_nat Pos.of_succ_nat Z.eqb writeLines Z.sub Z.ltb Z.compare
         Z.opp Z.add Z.pos_sub append].
  now rewrite append_assoc.
Qed.

Lemma commentsToStr_one_line_witness :
  strings.ContainsByte ("say " ++ QUOTE ++ "hi" ++ QUOTE ++ " ") LF = false /\
  commentsToStr ("say " ++ QUOTE ++ "hi" ++ QUOTE ++ " ")
  = QUOTE ++ "say " ++ QUOTE ++ "hi" ++ QUOTE ++ QUOTE.
Proof.
  split; [reflexivity|].
  rewrite (commentsToStr_one_line ("say " ++ QUOTE ++ "hi" ++ QUOTE ++ " ")); reflexivity.
Defined.



(** ** Actions that keep the frame of the file *)

Lemma Framed_fields (a : Gen) (g : GeneratedFile) :
  Framed a ->
  filename (a g) = filename g /\
  goImportPath (a g) = goImportPath g /\
  buf (a g) = List.app (buf g) (written a (goImportPath g)) /\
  annotations (a g) = List.app (annotations g) (annotated a (goImportPath g)).
Proof. intros H. rewrite (H g). repeat split. Qed.

Lemma Framed_Writer (a : Gen) : Framed a -> Writer a.
Proof.
  intros H g. destruct (Framed_fields a g H) as (_ & Hp & Hb & _). now split.
Qed.

Lemma Framed_ext (a b : Gen) : (forall g, a g = b g) -> Framed a -> Framed b.
Proof.
  intros E H g. unfold written, annotated. rewrite <- !E. apply H.
Qed.

Lemma Framed_skip : Framed skip.
Proof.
  intros g. unfold written, annotated, skip. cbn [buf annotations].
  rewrite !app_nil_r. now destruct g.
Qed.

Lemma Framed_Annotate (symbol : string) (loc : Location) : Framed (Annotate symbol loc).
Proof.
  intros g. unfold written, annotated, Annotate, goAppend. cbn [buf annotations app].
  now rewrite app_nil_r.
Qed.

Lemma annotated_seq (a b : Gen) (path : string) :
  Framed a -> Framed b ->
  annotated (a ;; b) path = List.app (annotated a path) (annotated b path).
Proof.
  intros Ha Hb. unfold annotated at 1. unfold seq.
  destruct (Framed_fields b
              (a {| filename := ""; goImportPath := path; buf := []; annotations := [] |}) Hb)
    as (_ & _ & _ & ->).
  destruct (Framed_fields a
              {| filename := ""; goImportPath := path; buf := []; annotations := [] |} Ha)
    as (_ & -> & _ & _).
  reflexivity.
Qed.

Lemma Framed_seq (a b : Gen) : Framed a -> Framed b -> Framed (a ;; b).
Proof.
  intros Ha Hb g.
  rewrite (written_seq a b _ (Framed_Writer a Ha) (Framed_Writer b Hb)).
  rewrite (annotated_seq a b _ Ha Hb). unfold seq.
  rewrite (Hb (a g)).
  destruct (Framed_fields a g Ha) as (-> & -> & -> & ->).
  now rewrite <- !app_assoc.
Qed.

Lemma Framed_when (b : bool) (a : Gen) : Framed a -> Framed (when b a).
Proof. destruct b; simpl; auto using Framed_skip. Qed.

Lemma Framed_ifElse (b : bool) (a a' : Gen) : Framed a -> Framed a' -> Framed (ifElse b a a').
Proof. destruct b; simpl; auto. Qed.

Lemma Framed_forEach {A : Type} (l : list A) (body : A -> Gen) :
  (forall x, Framed (body x)) -> Framed (forEach l body).
Proof.
  intros H. induction l as [|x l IH].
  - exact Framed_skip.
  - rewrite forEach_cons. now apply Framed_seq.
Qed.

Lemma annotated_forEach {A : Type} (l : list A) (body : A -> Gen) (path : string) :
  (forall x, Framed (body x)) ->
  annotated (forEach l body) path = flat_map (fun x => annotated (body x) path) l.
Proof.
  intros H. induction l as [|x l IH]; [reflexivity|].
  rewrite forEach_cons, annotated_seq by auto using Framed_forEach.
  now rewrite IH.
Qed.

Lemma annotated_when (b : bool) (a : Gen) (path : string) :
  annotated (when b a) path = if b then annotated a path else [].
Proof. now destruct b. Qed.

Section FramedGenerator.

Variable packageName : string -> string.

Lemma Framed_P_of (v : GeneratedFile -> list PArg) :
  (forall g g', goImportPath g = goImportPath g' -> v g = v g') ->
  Framed (fun g => P packageName (v g) g).
Proof.
  intros Hv g.
  destruct (Writer_P_of packageName v Hv g) as [Hb _].
  unfold P in Hb |- *. cbn [buf] in Hb. unfold annotated. cbn [annotations].
  rewrite app_nil_r. f_equal. exact Hb.
Qed.

Lemma Framed_P (v : list PArg) : Framed (P packageName v).
Proof. apply (Framed_P_of (fun _ => v)). reflexivity. Qed.

Lemma annotated_P (v : list PArg) (path : string) : annotated (P packageName v) path = [].
Proof. reflexivity. Qed.

Lemma annotated_P_of (v : GeneratedFile -> list PArg) (path : string) :
  annotated (fun g => P packageName (v g) g) path = [].
Proof. reflexivity. Qed.

End FramedGenerator.

Lemma annotated_Annotate (symbol : string) (loc : Location) (path : string) :
  annotated (Annotate symbol loc) path = [(symbol, loc)].
Proof. reflexivity. Qed.

Ltac framed :=
  cbv zeta;
  repeat match goal with
    | |- Framed (seq _ _) => apply Framed_seq
    | |- Framed (P _ _) => apply Framed_P
    | |- Framed (Annotate _ _) => apply Framed_Annotate
    | |- Framed skip => apply Framed_skip
    | |- Framed (when _ _) => apply Framed_when
    | |- Framed (ifElse _ _ _) => apply Framed_ifElse
    | |- Framed (forEach _ _) => apply Framed_forEach; intros ?
    end.

Section FramedGenerators.

Variable packageName : string -> string.

Lemma Framed_clientSpec (method : Method) :
  Framed (fun g => P packageName
                     [Cmts (meth_Leading method); Str (clientSignature packageName g method)] g).
Proof.
  apply (Framed_P_of packageName
           (fun g => [Cmts (meth_Leading method); Str (clientSignature packageName g method)])).
  intros g g' H. now rewrite (clientSignature_path packageName g g' method H).
Qed.

Lemma Framed_serverSpec (method : Method) :
  Framed (fun g => P packageName
                     [Cmts (meth_Leading method); Str (serverSignature packageName g method)] g).
Proof.
  apply (Framed_P_of packageName
           (fun g => [Cmts (meth_Leading method); Str (serverSignature packageName g method)])).
  intros g g' H. now rewrite (serverSignature_path packageName g g' method H).
Qed.

Lemma Framed_clientFunc (implName : string) (method : Method) :
  Framed (fun g => P packageName
                     [Str "func (c *"; Str implName; Str ") ";
                      Str (clientSignature packageName g method); Str "{"] g).
Proof.
  apply (Framed_P_of packageName
           (fun g => [Str "func (c *"; Str implName; Str ") ";
                      Str (clientSignature packageName g method); Str "{"])).
  intros g g' H. now rewrite (clientSignature_path packageName g g' method H).
Qed.

Lemma Framed_genClientInterface (service : Service) :
  Framed (genClientInterface packageName service).
Proof. unfold genClientInterface. framed. apply Framed_clientSpec. Qed.

Lemma Framed_genServerInterface (service : Service) :
  Framed (genServerInterface packageName service).
Proof. unfold genServerInterface. framed. apply Framed_serverSpec. Qed.

Lemma Framed_genMethodDefn (svc : Service) (meth : Method) :
  Framed (genMethodDefn packageName svc meth).
Proof. unfold genMethodDefn. framed. Qed.

Lemma Framed_genServiceDef (gen : Plugin) (file : File) (svc : Service) :
  Framed (genServiceDef packageName gen file svc).
Proof. unfold genServiceDef. framed. apply Framed_genMethodDefn. Qed.

Lemma Framed_genClientMethod (gen : Plugin) (file : File) (method : Method) (index : Z) :
  Framed (genClientMethod packageName gen file method index).
Proof. unfold genClientMethod. framed. apply Framed_clientFunc. Qed.

Lemma Framed_clientMethods (gen : Plugin) (file : File) (methods : list Method)
  (methodIndex streamIndex : Z) :
  Framed (fun g =>
     snd (fold_left (clientMethodStep packageName gen file) methods
            ((methodIndex, streamIndex), g))).
Proof.
  revert methodIndex streamIndex.
  induction methods as [|method methods IH]; intros methodIndex streamIndex.
  - exact Framed_skip.
  - destruct (negb (IsStreamingServer method) && negb (IsStreamingClient method)) eqn:E.
    + apply (Framed_ext
               (genClientMethod packageName gen file method methodIndex ;;
                (fun g => snd (fold_left (clientMethodStep packageName gen file) methods
                                 ((methodIndex + 1, streamIndex)%Z, g))))).
      * intros g. unfold seq. cbn [fold_left clientMethodStep]. now rewrite E.
      * apply Framed_seq; [apply Framed_genClientMethod|apply IH].
    + apply (Framed_ext
               (genClientMethod packageName gen file method streamIndex ;;
                (fun g => snd (fold_left (clientMethodStep packageName gen file) methods
                                 ((methodIndex, streamIndex + 1)%Z, g))))).
      * intros g. unfold seq. cbn [fold_left clientMethodStep]. now rewrite E.
      * apply Framed_seq; [apply Framed_genClientMethod|apply IH].
Qed.

Lemma Framed_genClientImpl (gen : Plugin) (file : File) (service : Service) :
  Framed (genClientImpl packageName gen file service).
Proof. unfold genClientImpl. framed. apply Framed_clientMethods. Qed.

Lemma Framed_genServerMethod (gen : Plugin) (file : File) (method : Method)
  (formatter : string -> string) :
  Framed (fun g => snd (genServerMethod packageName gen file method formatter g)).
Proof.
  unfold genServerMethod. cbv zeta.
  destruct (negb (IsStreamingClient method) && negb (IsStreamingServer method)).
  - exact Framed_skip.
  - cbn [snd].
    match goal with |- Framed (fun g => ?a g) => change (Framed a) end.
    framed.
Qed.

Lemma serverMethods_cons (gen : Plugin) (file : File) (method : Method)
  (methods : list Method) (handlerNames : list string) (g : GeneratedFile) :
  snd (fold_left (serverMethodStep packageName gen file) (method :: methods)
         (handlerNames, g))
  = snd (fold_left (serverMethodStep packageName gen file) methods
           (goAppend handlerNames (genServerMethod_hname method),
            snd (genServerMethod packageName gen file method (fun hname => hname) g))).
Proof.
  cbn [fold_left serverMethodStep]. unfold genServerMethod.
  destruct (negb (IsStreamingClient method) && negb (IsStreamingServer method));
    reflexivity.
Qed.

Lemma Framed_serverMethods (gen : Plugin) (file : File) (methods : list Method)
  (handlerNames : list string) :
  Framed (fun g =>
     snd (fold_left (serverMethodStep packageName gen file) methods (handlerNames, g))).
Proof.
  revert handlerNames.
  induction methods as [|method methods IH]; intros handlerNames.
  - exact Framed_skip.
  - apply (Framed_ext
             ((fun g => snd (genServerMethod packageName gen file method
                               (fun hname => hname) g)) ;;
              (fun g => snd (fold_left (serverMethodStep packageName gen file) methods
                               (goAppend handlerNames (genServerMethod_hname method), g))))).
    + intros g. unfold seq. now rewrite serverMethods_cons.
    + apply Framed_seq; [apply Framed_genServerMethod|apply IH].
Qed.

Lemma Framed_generateServerFunctions (gen : Plugin) (file : File) (service : Service)
  (serverType serviceDescVar : string) :
  Framed (generateServerFunctions packageName gen file service serverType serviceDescVar).
Proof. unfold generateServerFunctions. apply Framed_serverMethods. Qed.

Lemma Framed_genService (gen : Plugin) (file : File) (service : Service) :
  Framed (genService packageName gen file service).
Proof.
  unfold genService. framed;
    auto using Framed_genClientInterface, Framed_genClientImpl,
      Framed_genServerInterface, Framed_generateServerFunctions, Framed_genServiceDef.
Qed.

Lemma Framed_genFieldHelps (gen : Plugin) (file : File) :
  Framed (genFieldHelps packageName gen file).
Proof. unfold genFieldHelps. framed. Qed.

Lemma Framed_genLeadingComments (loc : SourceLocation) :
  Framed (genLeadingComments packageName loc).
Proof. unfold genLeadingComments. framed. Qed.

Lemma Framed_genHeader (file : File) : Framed (genHeader packageName file).
Proof. unfold genHeader, genLeadingComments. framed. Qed.

Lemma Framed_generateFileContent (gen : Plugin) (file : File) :
  Framed (generateFileContent packageName gen file).
Proof.
  unfold generateFileContent. destruct (Services file); [exact Framed_skip|].
  framed; auto using Framed_genService, Framed_genFieldHelps.
Qed.

End FramedGenerators.

(** ** Annotations *)

Lemma annotated_ext (a b : Gen) (path : string) :
  (forall g, a g = b g) -> annotated a path = annotated b path.
Proof. intros E. unfold annotated. now rewrite E. Qed.

Lemma flat_map_nil {A B : Type} (f : A -> list B) (l : list A) :
  (forall x, f x = []) -> flat_map f l = [].
Proof. intros H. induction l as [|x l IH]; simpl; [reflexivity|]. now rewrite H, IH. Qed.

Lemma flat_map_single {A B : Type} (f : A -> B) (l : list A) :
  flat_map (fun x => [f x]) l = map f l.
Proof. induction l as [|x l IH]; simpl; congruence. Qed.

Section Annotations.

Variable packageName : string -> string.

Lemma annotated_genClientMethod (gen : Plugin) (file : File) (method : Method) (index : Z)
  (path : string) :
  annotated (genClientMethod packageName gen file method index) path = [].
Proof.
  unfold genClientMethod. cbv zeta.
  destruct (IsStreamingServer method), (IsStreamingClient method); reflexivity.
Qed.

Lemma annotated_clientMethods (gen : Plugin) (file : File) (methods : list Method)
  (methodIndex streamIndex : Z) (path : string) :
  annotated (fun g =>
     snd (fold_left (clientMethodStep packageName gen file) methods
            ((methodIndex, streamIndex), g))) path = [].
Proof.
  revert methodIndex streamIndex.
  induction methods as [|method methods IH]; intros methodIndex streamIndex.
  - reflexivity.
  - destruct (negb (IsStreamingServer method) && negb (IsStreamingClient method)) eqn:E.
    + rewrite (annotated_ext _
                 (genClientMethod packageName gen file method methodIndex ;;
                  (fun g => snd (fold_left (clientMethodStep packageName gen file) methods
                                   ((methodIndex + 1, streamIndex)%Z, g))))).
      * rewrite annotated_seq
          by auto using Framed_genClientMethod, Framed_clientMethods.
        now rewrite annotated_genClientMethod, IH.
      * intros g. unfold seq. cbn [fold_left clientMethodStep]. now rewrite E.
    + rewrite (annotated_ext _
                 (genClientMethod packageName gen file method streamIndex ;;
                  (fun g => snd (fold_left (clientMethodStep packageName gen file) methods
                                   ((methodIndex, streamIndex + 1)%Z, g))))).
      * rewrite annotated_seq
          by auto using Framed_genClientMethod, Framed_clientMethods.
        now rewrite annotated_genClientMethod, IH.
      * intros g. unfold seq. cbn [fold_left clientMethodStep]. now rewrite E.
Qed.

Lemma annotated_genClientImpl (gen : Plugin) (file : File) (service : Service)
  (path : string) :
  annotated (genClientImpl packageName gen file service) path = [].
Proof.
  unfold genClientImpl. cbv zeta.
  pose proof (Framed_clientMethods packageName gen file (svc_Methods service) 0 0) as Hf.
  repeat (rewrite annotated_seq by (framed; exact Hf)).
  now rewrite !annotated_P, annotated_clientMethods.
Qed.

Lemma annotated_genServerMethod (gen : Plugin) (file : File) (method : Method)
  (formatter : string -> string) (path : string) :
  annotated (fun g => snd (genServerMethod packageName gen file method formatter g)) path
  = [].
Proof.
  unfold genServerMethod. cbv zeta.
  destruct (IsStreamingClient method), (IsStreamingServer method); reflexivity.
Qed.

Lemma annotated_serverMethods (gen : Plugin) (file : File) (methods : list Method)
  (handlerNames : list string) (path : string) :
  annotated (fun g =>
     snd (fold_left (serverMethodStep packageName gen file) methods (handlerNames, g)))
    path = [].
Proof.
  revert handlerNames.
  induction methods as [|method methods IH]; intros handlerNames; [reflexivity|].
  rewrite (annotated_ext _
             ((fun g => snd (genServerMethod packageName gen file method
                               (fun hname => hname) g)) ;;
              (fun g => snd (fold_left (serverMethodStep packageName gen file) methods
                               (goAppend handlerNames (genServerMethod_hname method), g))))).
  - rewrite annotated_seq
      by auto using Framed_genServerMethod, Framed_serverMethods.
    now rewrite annotated_genServerMethod, IH.
  - intros g. unfold seq. now rewrite serverMethods_cons.
Qed.

Lemma annotated_genMethodDefn (svc : Service) (meth : Method) (path : string) :
  annotated (genMethodDefn packageName svc meth) path = [].
Proof.
  unfold genMethodDefn. cbv zeta. destruct (IsStreamingServer meth); reflexivity.
Qed.

Lemma annotated_genServiceDef (gen : Plugin) (file : File) (svc : Service) (path : string) :
  annotated (genServiceDef packageName gen file svc) path = [].
Proof.
  unfold genServiceDef. cbv zeta.
  pose proof (Framed_genMethodDefn packageName svc) as Hm.
  repeat (rewrite annotated_seq by (framed; apply Hm)).
  rewrite annotated_forEach by exact Hm.
  rewrite !annotated_P. cbn [app]. rewrite app_nil_r.
  apply flat_map_nil. intros meth. apply annotated_genMethodDefn.
Qed.

Lemma annotated_genClientInterface (service : Service) (path : string) :
  annotated (genClientInterface packageName service) path
  = (svc_GoName service ++ "Client", svc_Location service)
    :: map (fun method =>
              ((svc_GoName service ++ "Client") ++ "." ++ meth_GoName method,
               meth_Location method))
         (svc_Methods service).
Proof.
  unfold genClientInterface. cbv zeta.
  pose proof (Framed_clientSpec packageName) as Hs.
  repeat (rewrite annotated_seq by (framed; apply Hs)).
  rewrite annotated_forEach by (intros; framed; apply Hs).
  rewrite annotated_when, !annotated_P, annotated_Annotate.
  rewrite annotated_seq by framed. rewrite !annotated_P.
  replace (if svc_Deprecated service then ([] ++ [])%list else [])
    with (@nil (string * Location)) by (now destruct (svc_Deprecated service)).
  cbn [app]. rewrite app_nil_r. f_equal.
  rewrite <- flat_map_single. apply flat_map_ext. intros method.
  repeat (rewrite annotated_seq by (framed; apply Hs)).
  rewrite annotated_when, annotated_P, annotated_Annotate, annotated_P_of.
  now destruct (meth_Deprecated method).
Qed.

Lemma annotated_genServerInterface (service : Service) (path : string) :
  annotated (genServerInterface packageName service) path
  = (svc_GoName service ++ "Server", svc_Location service)
    :: map (fun method =>
              ((svc_GoName service ++ "Server") ++ "." ++ meth_GoName method,
               meth_Location method))
         (svc_Methods service).
Proof.
  unfold genServerInterface. cbv zeta.
  pose proof (Framed_serverSpec packageName) as Hs.
  repeat (rewrite annotated_seq by (framed; apply Hs)).
  rewrite annotated_forEach by (intros; framed; apply Hs).
  rewrite annotated_when, !annotated_P, annotated_Annotate.
  rewrite annotated_seq by framed. rewrite !annotated_P.
  replace (if svc_Deprecated service then ([] ++ [])%list else [])
    with (@nil (string * Location)) by (now destruct (svc_Deprecated service)).
  cbn [app]. rewrite app_nil_r. f_equal.
  rewrite <- flat_map_single. apply flat_map_ext. intros method.
  repeat (rewrite annotated_seq by (framed; apply Hs)).
  rewrite annotated_when, annotated_P, annotated_Annotate, annotated_P_of.
  now destruct (meth_Deprecated method).
Qed.

(** X6: [genService] annotates the two interfaces and their methods
    and nothing else: the client interface with the location of the
    service, each of its methods, in the order of declaration, under
    the name of the interface, a dot and the name of the method, with
    the location of the method; then the server interface likewise. *)
Theorem genService_annotations (gen : Plugin) (file : File) (service : Service)
  (path : string) :
  annotated (genService packageName gen file service) path
  = List.app
      ((svc_GoName service ++ "Client", svc_Location service)
       :: map (fun method =>
                 ((svc_GoName service ++ "Client") ++ "." ++ meth_GoName method,
                  meth_Location method))
            (svc_Methods service))
      ((svc_GoName service ++ "Server", svc_Location service)
       :: map (fun method =>
                 ((svc_GoName service ++ "Server") ++ "." ++ meth_GoName method,
                  meth_Location method))
            (svc_Methods service)).
Proof.
  unfold genService. cbv zeta.
  repeat (rewrite annotated_seq
            by (framed;
                auto using Framed_genClientInterface, Framed_genClientImpl,
                  Framed_genServerInterface, Framed_generateServerFunctions,
                  Framed_genServiceDef)).
  rewrite annotated_genClientInterface, annotated_genClientImpl,
    annotated_genServerInterface, annotated_genServiceDef.
  unfold generateServerFunctions. rewrite annotated_serverMethods.
  cbn [app]. now rewrite app_nil_r.
Qed.

End Annotations.

(** ** The file and its head *)

(** X7: for a file with a service [generateFile] makes one file, named
    by the prefix of the schema file and [_svcintf.pb.go], in the
    package of the schema file, returns it, and adds it to the files of
    the plugin after those that are there. *)
Theorem generateFile_registers
  (packageName : string -> string) (gen : Plugin) (file : File) :
  Services file <> [] ->
  exists g,
    generateFile packageName gen file
    = ({| genFiles := List.app (genFiles gen) [g] |}, Some g) /\
    filename g = GeneratedFilenamePrefix file ++ "_svcintf.pb.go" /\
    goImportPath g = file_GoImportPath file.
Proof.
  intros H. unfold generateFile.
  destruct (Services file) as [|service services] eqn:E; [contradiction|].
  cbv zeta. eexists. split; [reflexivity|].
  assert (Hf : Framed (genHeader packageName file ;;
                       generateFileContent packageName gen file))
    by (apply Framed_seq; auto using Framed_genHeader, Framed_generateFileContent).
  destruct (Framed_fields _
              (NewGeneratedFile (GeneratedFilenamePrefix file ++ "_svcintf.pb.go")
                 (file_GoImportPath file)) Hf) as (Hn & Hp & _ & _).
  split; [exact Hn|exact Hp].
Qed.

Lemma generateFile_registers_witness :
  Services (greeterFile [greeter (sayHello false false false "")]) <> [] /\
  exists g,
    generateFile pathBase noPlugin (greeterFile [greeter (sayHello false false false "")])
    = ({| genFiles := List.app (genFiles noPlugin) [g] |}, Some g) /\
    filename g = "greeter_svcintf.pb.go" /\
    goImportPath g = "example.com/greeter".
Proof.
  assert (H : Services (greeterFile [greeter (sayHello false false false "")]) <> [])
    by discriminate.
  split; [exact H|].
  exact (generateFile_registers pathBase noPlugin
           (greeterFile [greeter (sayHello false false false "")]) H).
Defined.

Lemma written_genLeadingComments (packageName : string -> string) (loc : SourceLocation)
  (path : string) :
  written (genLeadingComments packageName loc) path = leadingLines loc.
Proof.
  unfold genLeadingComments, leadingLines.
  rewrite written_seq by writer.
  rewrite written_forEach by (intros; writer).
  rewrite written_when. f_equal.
  destruct (LeadingComments loc =? ""); reflexivity.
Qed.

(** X8: the head of the generated file: the notice of generated code
    and the line of the source, or of the deprecated source, come
    before the package clause, an empty line follows each of the two
    parts, and the comments of the syntax and of the package statement
    go before the part they belong to; a statement without comments
    adds no line. *)
Theorem genHeader_lines (packageName : string -> string) (file : File) (path : string) :
  written (genHeader packageName file) path
  = List.app (leadingLines (syntaxLocation file))
      ("// Code generated by protoc-gen-go-svcintf. DO NOT EDIT."
       :: (if file_Deprecated file
           then "// " ++ file_Path file ++ " is a deprecated file."
           else "// source: " ++ file_Path file)
       :: ""
       :: List.app (leadingLines (packageLocation file))
            ["package " ++ GoPackageName file; ""]) /\
  (LeadingDetachedComments (syntaxLocation file) = [] ->
   LeadingComments (syntaxLocation file) = "" ->
   hd_error (written (genHeader packageName file) path)
   = Some "// Code generated by protoc-gen-go-svcintf. DO NOT EDIT.").
Proof.
  assert (H : written (genHeader packageName file) path
              = List.app (leadingLines (syntaxLocation file))
                  ("// Code generated by protoc-gen-go-svcintf. DO NOT EDIT."
                   :: (if file_Deprecated file
                       then "// " ++ file_Path file ++ " is a deprecated file."
                       else "// source: " ++ file_Path file)
                   :: ""
                   :: List.app (leadingLines (packageLocation file))
                        ["package " ++ GoPackageName file; ""])).
  { unfold genHeader.
    pose proof (Writer_genHeader packageName file) as Hh.
    repeat (rewrite written_seq
              by (unfold genLeadingComments; writer)).
    rewrite !written_genLeadingComments, !written_P.
    cbn [map cat printArg]. f_equal. cbn [app]. f_equal.
    destruct (file_Deprecated file); reflexivity. }
  split; [exact H|].
  intros Hd Hl. rewrite H. unfold leadingLines at 1. rewrite Hd, Hl. reflexivity.
Qed.

(** ** The entries of the map of methods, further *)




Lemma written_skip (path : string) : written skip path = [].
Proof. reflexivity. Qed.


Section EntryFields.

Variable packageName : string -> string.








End EntryFields.


(** ** The stream interfaces *)

Lemma HasSuffix_self (s : string) : strings.HasSuffix s s = true.
Proof. exact (HasSuffix_append "" s). Qed.

Lemma HasSuffix_append_r (a b suffix : string) :
  strings.HasSuffix b suffix = true -> strings.HasSuffix (a ++ b) suffix = true.
Proof.
  intros H. rewrite HasSuffix_skip; [exact H|].
  unfold strings.HasSuffix in H. apply andb_true_iff in H as [H _].
  now apply Nat.leb_le.
Qed.

Ltac suffix_found :=
  rewrite !append_assoc;
  repeat first [ apply HasSuffix_self | apply HasSuffix_append_r ].

Lemma flat_map_nil_on {A B : Type} (f : A -> list B) (l : list A) :
  Forall (fun x => f x = []) l -> flat_map f l = [].
Proof. induction 1 as [|x l Hx _ IH]; simpl; [reflexivity|]. now rewrite Hx, IH. Qed.

Section StreamInterfaces.

Variable packageName : string -> string.

Lemma written_genClientMethod_streaming (gen : Plugin) (file : File) (method : Method)
  (index : Z) (path : string) :
  IsStreamingServer method || IsStreamingClient method = true ->
  hd_error (written (genClientMethod packageName gen file method index) path)
  = Some ("type " ++ streamClientType method ++ " interface {").
Proof.
  intros H. unfold genClientMethod. cbv zeta. rewrite H. cbn [when negb ifElse].
  pose proof (Writer_clientFunc packageName
                ("client_" ++ meth_Parent_GoName method) method) as Hf.
  repeat (rewrite written_seq by (writer; exact Hf)).
  rewrite written_P. cbn [map cat printArg app hd_error].
  unfold streamClientType. now rewrite !append_assoc.
Qed.

(** X12: a method with a streaming flag has its two stream interfaces
    declared under the names that its signatures use: the client
    method starts with the declaration of the type that the client
    signature returns, and [genServerMethod] with that of the last
    parameter of the server method.  A unary method declares no type. *)
Theorem stream_types_declared (gen : Plugin) (file : File) (method : Method)
  (index : Z) (g : GeneratedFile) (path : string) :
  (IsStreamingClient method || IsStreamingServer method = true ->
   hd_error (written (genClientMethod packageName gen file method index) path)
     = Some ("type " ++ streamClientType method ++ " interface {") /\
   strings.HasSuffix (clientSignature packageName g method)
     (") (" ++ streamClientType method ++ ",error)") = true /\
   hd_error
     (written (fun g => snd (genServerMethod packageName gen file method (fun h => h) g)) path)
     = Some ("type " ++ streamServerType method ++ " interface {") /\
   last (serverParams packageName g method) "" = streamServerType method) /\
  (IsStreamingClient method || IsStreamingServer method = false ->
   anyLineStarts "type "
     (written (genClientMethod packageName gen file method index) path) = false /\
   written (fun g => snd (genServerMethod packageName gen file method (fun h => h) g)) path
     = []).
Proof.
  split; intros H.
  - split; [|split; [|split]].
    + apply written_genClientMethod_streaming. now rewrite orb_comm.
    + unfold clientSignature, streamClientType. rewrite H.
      destruct (IsStreamingClient method), (IsStreamingServer method);
        try discriminate; cbn [negb]; suffix_found.
    + unfold genServerMethod, streamServerType. cbv zeta.
      destruct (IsStreamingClient method), (IsStreamingServer method);
        try discriminate; reflexivity.
    + unfold serverParams, goAppend. rewrite H.
      destruct (IsStreamingClient method); reflexivity.
  - apply orb_false_iff in H as [Hc Hs]. split.
    + unfold genClientMethod. cbv zeta. rewrite Hc, Hs. reflexivity.
    + unfold genServerMethod. cbv zeta. rewrite Hc, Hs. reflexivity.
Qed.

(** X13: the stream interface of the client has the method [Recv], and
    that of the server the method [Send], exactly when the server
    streams: for a method that streams from the client only the two
    interfaces are empty. *)
Theorem stream_methods_by_server_flag (gen : Plugin) (file : File) (method : Method)
  (index : Z) (path : string) :
  anyLineStarts "Recv(*"
    (written (genClientMethod packageName gen file method index) path)
    = IsStreamingServer method /\
  anyLineStarts "Send(m *"
    (written (fun g => snd (genServerMethod packageName gen file method (fun h => h) g))
       path)
    = IsStreamingServer method /\
  (IsStreamingClient method = true -> IsStreamingServer method = false ->
   written (fun g => snd (genServerMethod packageName gen file method (fun h => h) g)) path
   = ["type " ++ streamServerType method ++ " interface {"; "}"; ""]).
Proof.
  unfold genClientMethod, genServerMethod, streamServerType. cbv zeta.
  split; [|split].
  - destruct (IsStreamingServer method), (IsStreamingClient method); reflexivity.
  - destruct (IsStreamingServer method), (IsStreamingClient method); reflexivity.
  - intros -> ->. reflexivity.
Qed.

Lemma written_ext (a b : Gen) (path : string) :
  (forall g, a g = b g) -> written a path = written b path.
Proof. intros E. unfold written. now rewrite E. Qed.

Lemma written_serverMethods (gen : Plugin) (file : File) (methods : list Method)
  (handlerNames : list string) (path : string) :
  written (fun g =>
     snd (fold_left (serverMethodStep packageName gen file) methods (handlerNames, g)))
    path
  = flat_map
      (fun method =>
         written (fun g => snd (genServerMethod packageName gen file method (fun h => h) g))
           path)
      methods.
Proof.
  revert handlerNames.
  induction methods as [|method methods IH]; intros handlerNames; [reflexivity|].
  rewrite (written_ext _
             ((fun g => snd (genServerMethod packageName gen file method
                               (fun hname => hname) g)) ;;
              (fun g => snd (fold_left (serverMethodStep packageName gen file) methods
                               (goAppend handlerNames (genServerMethod_hname method), g))))).
  - rewrite written_seq
      by auto using Writer_genServerMethod, Writer_serverMethods.
    now rewrite IH.
  - intros g. unfold seq. now rewrite serverMethods_cons.
Qed.

(** X14: [generateServerFunctions] writes the stream interfaces of the
    server, one for every method with a streaming flag, in the order of
    declaration, and nothing for a unary method: for a service of unary
    methods it writes nothing. *)
Theorem generateServerFunctions_lines (gen : Plugin) (file : File) (service : Service)
  (serverType serviceDescVar : string) (path : string) :
  written (generateServerFunctions packageName gen file service serverType serviceDescVar)
    path
  = flat_map
      (fun method =>
         if IsStreamingClient method || IsStreamingServer method
         then ("type " ++ streamServerType method ++ " interface {")
              :: List.app
                   (if IsStreamingServer method
                    then ["Send(m *"
                          ++ QualifiedGoIdent packageName (NewGeneratedFile "" path)
                               (msg_GoIdent (meth_Output method))
                          ++ ") error "]
                    else [])
                   ["}"; ""]
         else [])
      (svc_Methods service) /\
  (Forall (fun method => IsStreamingClient method = false /\ IsStreamingServer method = false)
     (svc_Methods service) ->
   written (generateServerFunctions packageName gen file service serverType serviceDescVar)
     path = []).
Proof.
  unfold generateServerFunctions. rewrite written_serverMethods.
  assert (E : forall method,
             written (fun g => snd (genServerMethod packageName gen file method
                                      (fun h => h) g)) path
             = if IsStreamingClient method || IsStreamingServer method
               then ("type " ++ streamServerType method ++ " interface {")
                    :: List.app
                         (if IsStreamingServer method
                          then ["Send(m *"
                                ++ QualifiedGoIdent packageName (NewGeneratedFile "" path)
                                     (msg_GoIdent (meth_Output method))
                                ++ ") error "]
                          else [])
                         ["}"; ""]
               else []).
  { intros method. unfold genServerMethod, streamServerType. cbv zeta.
    destruct (IsStreamingClient method), (IsStreamingServer method); reflexivity. }
  split.
  - apply flat_map_ext. exact E.
  - intros H. apply flat_map_nil_on. 
    eapply Forall_impl; [|exact H]. intros method [Hc Hs]. cbv beta.
    now rewrite E, Hc, Hs.
Qed.

End StreamInterfaces.

(** ** The notices of deprecation, counted *)

Lemma countLine_app (line : string) (l l' : list string) :
  countLine line (l ++ l') = (countLine line l + countLine line l')%nat.
Proof. unfold countLine. now rewrite filter_app, length_app. Qed.

Lemma countLine_other (line other : string) (l : list string) :
  other <> line -> countLine line (other :: l) = countLine line l.
Proof.
  intros H. unfold countLine. cbn [filter].
  destruct (String.eqb_spec line other) as [E|_]; [congruence|reflexivity].
Qed.

Lemma countLine_same (line : string) (l : list string) :
  countLine line (line :: l) = S (countLine line l).
Proof. unfold countLine. cbn [filter]. now rewrite String.eqb_refl. Qed.

Lemma neq_by_suffix (s t suffix : string) :
  strings.HasSuffix s suffix = true -> strings.HasSuffix t suffix = false -> s <> t.
Proof. intros Hs Ht E. rewrite E in Hs. congruence. Qed.

Ltac suffix_end :=
  rewrite ?append_assoc;
  repeat (rewrite HasSuffix_skip by (rewrite ?length_append; simpl; lia)).

Lemma textLines_app (l l' : list string) :
  textLines (l ++ l') = (textLines l ++ textLines l')%list.
Proof. apply flat_map_app. Qed.

Lemma textLines_one_line (line : string) (rest : list string) :
  strings.ContainsByte line LF = false ->
  textLines (line :: rest) = line :: textLines rest.
Proof.
  intros H. unfold textLines. cbn [flat_map]. now rewrite Split_no_separator by exact H.
Qed.

(** The lines of a comment and of the code that follows it in one
    [P] call. *)
Lemma Split_comment_lines (lines : list string) (code : string) :
  Forall (fun line => strings.ContainsByte line LF = false) lines ->
  strings.ContainsByte code LF = false ->
  strings.Split (fold_right (fun line text => "//" ++ line ++ NL ++ text) "" lines ++ code) LF
  = List.app (map (fun line => "//" ++ line) lines) [code].
Proof.
  intros Hlines Hcode. induction Hlines as [|line lines Hline _ IH].
  - cbn [fold_right map app]. now apply Split_no_separator.
  - cbn [fold_right map app]. rewrite <- IH.
    rewrite !append_assoc.
    change ("//" ++ line ++ NL ++
              fold_right (fun line text => "//" ++ line ++ NL ++ text) "" lines ++ code)
      with (("//" ++ line) ++ NL ++
              fold_right (fun line text => "//" ++ line ++ NL ++ text) "" lines ++ code).
    apply Split_line. exact Hline.
Qed.

Lemma Split_Comments (c code : string) :
  strings.ContainsByte code LF = false ->
  strings.Split (Comments_String c ++ code) LF
  = List.app (map (fun line => "//" ++ line) (commentLines c)) [code].
Proof.
  intros Hcode. unfold Comments_String, commentLines. destruct (c =? "").
  - cbn [map app append]. now apply Split_no_separator.
  - rewrite Comments_lines.
    change ("" ++ fold_right (fun line text => "//" ++ line ++ NL ++ text) ""
                    (strings.Split (strings.TrimSuffix c NL) LF))
      with (fold_right (fun line text => "//" ++ line ++ NL ++ text) ""
              (strings.Split (strings.TrimSuffix c NL) LF)).
    apply Split_comment_lines; [apply Split_pieces_clean|exact Hcode].
Qed.

Lemma countLine_slashes (text : string) (lines : list string) :
  countLine ("//" ++ text) (map (fun line => "//" ++ line) lines) = countLine text lines.
Proof.
  unfold countLine. induction lines as [|line lines IH]; [reflexivity|].
  cbn [map filter].
  change ("//" ++ text =? "//" ++ line) with (text =? line).
  destruct (text =? line); cbn [List.length]; now rewrite IH.
Qed.

(** The notices among the lines of the [P] call of a method: those of
    its comment. *)
Lemma countLine_spec (c code : string) :
  strings.ContainsByte code LF = false ->
  code <> deprecationComment ->
  countLine deprecationComment (strings.Split (Comments_String c ++ code) LF)
  = countLine deprecationText (commentLines c).
Proof.
  intros Hcode Hneq. rewrite Split_Comments by exact Hcode.
  rewrite countLine_app.
  change deprecationComment with ("//" ++ deprecationText).
  rewrite countLine_slashes.
  rewrite countLine_other by exact Hneq.
  change (countLine ("//" ++ deprecationText) []) with 0%nat. lia.
Qed.

Lemma countLine_textLines_interfaceLines (doc head : string) (deprecated : bool)
  (spec : Method -> string) (methods : list Method) :
  strings.ContainsByte doc LF = false ->
  doc <> deprecationComment ->
  strings.ContainsByte head LF = false ->
  head <> deprecationComment ->
  Forall (fun method =>
            countLine deprecationComment (strings.Split (spec method) LF)
            = countLine deprecationText (commentLines (meth_Leading method))) methods ->
  countLine deprecationComment (textLines (interfaceLines doc head deprecated spec methods))
  = ((if deprecated then 1 else 0)
     + List.length (filter meth_Deprecated methods)
     + countLine deprecationText
         (flat_map (fun method => commentLines (meth_Leading method)) methods))%nat.
Proof.
  intros Hdoc Hdoc' Hhead Hhead' Hspec. unfold interfaceLines.
  cbn [app]. rewrite textLines_one_line by exact Hdoc.
  rewrite countLine_other by exact Hdoc'.
  rewrite textLines_app, countLine_app.
  assert (Hd : countLine deprecationComment
                 (textLines (if deprecated then ["//"; deprecationComment] else []))
               = if deprecated then 1%nat else 0%nat)
    by (now destruct deprecated).
  rewrite Hd, textLines_one_line by exact Hhead.
  rewrite countLine_other by exact Hhead'.
  rewrite textLines_app, countLine_app.
  change (countLine deprecationComment (textLines ["}"; ""])) with 0%nat.
  rewrite Nat.add_0_r, <- Nat.add_assoc. f_equal.
  induction Hspec as [|method methods Hm _ IH]; [reflexivity|].
  cbn [flat_map filter]. rewrite textLines_app, !countLine_app, IH.
  unfold methodLines, textLines at 1.
  destruct (meth_Deprecated method); cbn [app flat_map List.length];
    rewrite ?app_nil_r, ?countLine_app, Hm.
  - change (strings.Split deprecationComment LF) with [deprecationComment].
    rewrite countLine_same.
    change (countLine deprecationComment []) with 0%nat. lia.
  - lia.
Qed.

Lemma QualifiedGoIdent_one_line (packageName : string -> string) (g : GeneratedFile)
  (ident : GoIdent) :
  goIdentifier (packageName (ident_GoImportPath ident)) = true ->
  goIdentifier (ident_GoName ident) = true ->
  strings.ContainsByte (QualifiedGoIdent packageName g ident) LF = false.
Proof.
  intros Hp Hn. apply goIdentifier_no_newline in Hp, Hn. unfold QualifiedGoIdent.
  destruct (ident_GoImportPath ident =? goImportPath g); [exact Hn|].
  now rewrite !ContainsByte_append, Hp, Hn.
Qed.

Ltac one_line :=
  repeat (rewrite ContainsByte_append);
  repeat match goal with
         | H : strings.ContainsByte _ LF = false |- _ => rewrite H
         end;
  reflexivity.

Lemma signatures_one_line (packageName : string -> string) (g : GeneratedFile)
  (method : Method) :
  forallb goIdentifier (signatureNames packageName method) = true ->
  strings.ContainsByte (clientSignature packageName g method) LF = false /\
  strings.ContainsByte (serverSignature packageName g method) LF = false.
Proof.
  unfold signatureNames. cbn [forallb]. intros H.
  repeat (apply andb_true_iff in H; destruct H as [? H]).
  pose proof (QualifiedGoIdent_one_line packageName g ctxIdent) as Hctx.
  pose proof (QualifiedGoIdent_one_line packageName g (msg_GoIdent (meth_Input method)))
    as Hin.
  pose proof (QualifiedGoIdent_one_line packageName g (msg_GoIdent (meth_Output method)))
    as Hout.
  specialize (Hctx ltac:(assumption) ltac:(assumption)).
  specialize (Hin ltac:(assumption) ltac:(assumption)).
  specialize (Hout ltac:(assumption) ltac:(assumption)).
  repeat match goal with
         | Hid : goIdentifier _ = true |- _ => apply goIdentifier_no_newline in Hid
         end.
  split.
  - unfold clientSignature.
    destruct (IsStreamingClient method), (IsStreamingServer method);
      cbn [negb orb]; one_line.
  - unfold serverSignature, serverParams, goAppend.
    destruct (IsStreamingClient method), (IsStreamingServer method);
      cbn [negb orb app strings.Join String.concat]; one_line.
Qed.

(** X15: among the lines of the text of each of the two interface
    declarations of a service, there are as many notices of
    deprecation as the service has deprecated methods, one more if
    the service is deprecated, and one more for every line of a
    comment of a method that reads as the notice does: but for the
    comments of the schema, a notice is written for the deprecated
    methods and the deprecated service only.  The names in the
    signatures are taken to be identifiers. *)
Theorem deprecation_notices_counted
  (packageName : string -> string) (service : Service) (path : string) :
  goIdentifier (svc_GoName service) = true ->
  Forall (fun method => forallb goIdentifier (signatureNames packageName method) = true)
    (svc_Methods service) ->
  countLine deprecationComment
    (textLines (written (genClientInterface packageName service) path))
  = ((if svc_Deprecated service then 1 else 0)
     + List.length (filter meth_Deprecated (svc_Methods service))
     + countLine deprecationText
         (flat_map (fun method => commentLines (meth_Leading method))
            (svc_Methods service)))%nat /\
  countLine deprecationComment
    (textLines (written (genServerInterface packageName service) path))
  = ((if svc_Deprecated service then 1 else 0)
     + List.length (filter meth_Deprecated (svc_Methods service))
     + countLine deprecationText
         (flat_map (fun method => commentLines (meth_Leading method))
            (svc_Methods service)))%nat.
Proof.
  intros Hsvc Hmeths. apply goIdentifier_no_newline in Hsvc.
  rewrite written_genClientInterface, written_genServerInterface.
  split; apply countLine_textLines_interfaceLines.
  - one_line.
  - apply (neq_by_suffix _ _ "ce."); [|reflexivity]. suffix_end. reflexivity.
  - one_line.
  - intros H. discriminate H.
  - eapply Forall_impl; [|exact Hmeths]. intros method Hm. cbv beta.
    apply countLine_spec.
    + now apply signatures_one_line.
    + apply (neq_by_suffix _ _ ")"); [|reflexivity].
      unfold clientSignature.
      destruct (IsStreamingClient method), (IsStreamingServer method);
        cbn [negb orb]; suffix_end; reflexivity.
  - one_line.
  - apply (neq_by_suffix _ _ "ce."); [|reflexivity]. suffix_end. reflexivity.
  - one_line.
  - intros H. discriminate H.
  - eapply Forall_impl; [|exact Hmeths]. intros method Hm. cbv beta.
    apply countLine_spec.
    + now apply signatures_one_line.
    + apply (neq_by_suffix _ _ "r"); [|reflexivity].
      unfold serverSignature. cbv zeta. suffix_end. reflexivity.
Qed.

Lemma deprecation_notices_counted_witness :
  goIdentifier (svc_GoName (greeter (sayHello false false false (deprecationText ++ NL))))
  = true /\
  Forall (fun method => forallb goIdentifier (signatureNames pathBase method) = true)
    (svc_Methods (greeter (sayHello false false false (deprecationText ++ NL)))) /\
  countLine deprecationComment
    (textLines
       (written (genClientInterface pathBase
                   (greeter (sayHello false false false (deprecationText ++ NL))))
          "example.com/greeter"))
  = 1%nat.
Proof.
  assert (Hm : Forall (fun method =>
                         forallb goIdentifier (signatureNames pathBase method) = true)
                 (svc_Methods (greeter (sayHello false false false (deprecationText ++ NL)))))
    by (repeat constructor).
  split; [reflexivity|]. split; [exact Hm|].
  exact (proj1 (deprecation_notices_counted pathBase
                  (greeter (sayHello false false false (deprecationText ++ NL)))
                  "example.com/greeter" eq_refl Hm)).
Defined.

(** ** The names of the client *)


Lemma interfaceLines_spec (doc head : string) (deprecated : bool)
  (spec : Method -> string) (methods : list Method) (method : Method) :
  In method methods ->
  In (spec method) (interfaceLines doc head deprecated spec methods).
Proof.
  intros H. unfold interfaceLines. apply in_or_app. right. apply in_or_app. right.
  right. apply in_or_app. left. apply in_flat_map. exists method. split; [exact H|].
  unfold methodLines. apply in_or_app. right. now left.
Qed.

Ltac in_lines := cbn [In]; repeat first [ left; reflexivity | right ].

Section ClientNames.

Variable packageName : string -> string.

Lemma written_clientMethods (gen : Plugin) (file : File) (methods : list Method)
  (methodIndex streamIndex : Z) (path : string) :
  written (fun g =>
     snd (fold_left (clientMethodStep packageName gen file) methods
            ((methodIndex, streamIndex), g))) path
  = flat_map (fun method => written (genClientMethod packageName gen file method 0) path)
      methods.
Proof.
  revert methodIndex streamIndex.
  induction methods as [|method methods IH]; intros methodIndex streamIndex; [reflexivity|].
  destruct (negb (IsStreamingServer method) && negb (IsStreamingClient method)) eqn:E.
  - rewrite (written_ext _
               (genClientMethod packageName gen file method methodIndex ;;
                (fun g => snd (fold_left (clientMethodStep packageName gen file) methods
                                 ((methodIndex + 1, streamIndex)%Z, g))))).
    + rewrite written_seq by auto using Writer_genClientMethod, Writer_clientMethods.
      now rewrite IH.
    + intros g. unfold seq. cbn [fold_left clientMethodStep]. now rewrite E.
  - rewrite (written_ext _
               (genClientMethod packageName gen file method streamIndex ;;
                (fun g => snd (fold_left (clientMethodStep packageName gen file) methods
                                 ((methodIndex, streamIndex + 1)%Z, g))))).
    + rewrite written_seq by auto using Writer_genClientMethod, Writer_clientMethods.
      now rewrite IH.
    + intros g. unfold seq. cbn [fold_left clientMethodStep]. now rewrite E.
Qed.

Lemma written_genClientImpl (gen : Plugin) (file : File) (service : Service) (path : string) :
  written (genClientImpl packageName gen file service) path
  = List.app
      [ "type " ++ ("client_" ++ svc_GoName service) ++ " struct {";
        "c ClientConn"; "defn ServiceDefn"; "}" ]
      (List.app
         (flat_map (fun method => written (genClientMethod packageName gen file method 0) path)
            (svc_Methods service))
         [ "func New" ++ (svc_GoName service ++ "Client") ++ "(c ClientConn)"
             ++ (svc_GoName service ++ "Client") ++ "{";
           "return &client_" ++ svc_GoName service ++ "{c: c, defn: "
             ++ svc_GoName service ++ "Defn()}";
           "}"; "" ]).
Proof.
  unfold genClientImpl. cbv zeta.
  pose proof (Writer_clientMethods packageName gen file (svc_Methods service) 0 0) as Hf.
  repeat (rewrite written_seq by (writer; exact Hf)).
  now rewrite !written_P, written_clientMethods.
Qed.

Lemma genClientMethod_receiver (gen : Plugin) (file : File) (method : Method) (index : Z)
  (path : string) :
  In ("func (c *" ++ ("client_" ++ meth_Parent_GoName method) ++ ") "
        ++ clientSignature packageName (NewGeneratedFile "" path) method ++ "{")
    (written (genClientMethod packageName gen file method index) path).
Proof.
  unfold genClientMethod. cbv zeta.
  pose proof (Writer_clientFunc packageName
                ("client_" ++ meth_Parent_GoName method) method) as Hf.
  destruct (IsStreamingServer method), (IsStreamingClient method);
    cbn [negb orb ifElse when];
    repeat (rewrite written_seq by (writer; exact Hf));
    rewrite ?written_P, ?written_skip; repeat rewrite written_P_of;
    cbn [map cat printArg app]; in_lines.
Qed.

(** X16: the names that the client of a service uses are declared: the
    structure [client_] and the name of the service is declared, every
    method of the service, whose parent is the service, is declared on
    a pointer to it with the client signature that the client
    interface gives it, the constructor returns a pointer to it, and
    fills its definition from the function that [genServiceDef]
    declares first. *)
Theorem client_names_declared (gen : Plugin) (file : File) (service : Service)
  (method : Method) (path : string) :
  In method (svc_Methods service) ->
  meth_Parent_GoName method = svc_GoName service ->
  In ("type " ++ ("client_" ++ svc_GoName service) ++ " struct {")
    (written (genClientImpl packageName gen file service) path) /\
  In ("func (c *" ++ ("client_" ++ svc_GoName service) ++ ") "
        ++ clientSignature packageName (NewGeneratedFile "" path) method ++ "{")
    (written (genClientImpl packageName gen file service) path) /\
  In (Comments_String (meth_Leading method)
      ++ clientSignature packageName (NewGeneratedFile "" path) method)
    (written (genClientInterface packageName service) path) /\
  In ("return &client_" ++ svc_GoName service ++ "{c: c, defn: "
        ++ svc_GoName service ++ "Defn()}")
    (written (genClientImpl packageName gen file service) path) /\
  hd_error (written (genServiceDef packageName gen file service) path)
  = Some ("func " ++ svc_GoName service ++ "Defn() ServiceDefn { ").
Proof.
  intros Hin Hparent.
  rewrite written_genClientImpl, written_genServiceDef, written_genClientInterface.
  split; [|split; [|split; [|split]]].
  - in_lines.
  - apply in_or_app. right. apply in_or_app. left.
    apply in_flat_map. exists method. split; [exact Hin|].
    rewrite <- Hparent. apply genClientMethod_receiver.
  - now apply (interfaceLines_spec _ _ _
                 (fun method => Comments_String (meth_Leading method)
                                ++ clientSignature packageName
                                     (NewGeneratedFile "" path) method)).
  - apply in_or_app. right. apply in_or_app. right. in_lines.
  - reflexivity.
Qed.

End ClientNames.

Lemma client_names_declared_witness :
  In (sayHello false false false "") (svc_Methods (greeter (sayHello false false false ""))) /\
  meth_Parent_GoName (sayHello false false false "")
  = svc_GoName (greeter (sayHello false false false "")) /\
  In "type client_Greeter struct {"
    (written (genClientImpl pathBase noPlugin
                (greeterFile [greeter (sayHello false false false "")])
                (greeter (sayHello false false false "")))
       "example.com/greeter").
Proof.
  assert (H : In (sayHello false false false "")
                (svc_Methods (greeter (sayHello false false false ""))))
    by (left; reflexivity).
  split; [exact H|]. split; [reflexivity|].
  exact (proj1 (client_names_declared pathBase noPlugin
                  (greeterFile [greeter (sayHello false false false "")])
                  (greeter (sayHello false false false ""))
                  (sayHello false false false "") "example.com/greeter" H eq_refl)).
Defined.

(** ** The server interface and the handlers *)

Section ServerNames.

Variable packageName : string -> string.



End ServerNames.

